(** * Penguin power placement: the MINLP model and the placement editor

    A shallow embedding of [ppp/minlp.py] (the model handed to the
    external solver and the Taylor expansions of the penalty) and of the
    tower mutators of [ppp/gui/main_gui.py], with the properties the
    design document states about them.

    Numbers.  The polynomial returned by [exp_expansion_1] and
    [exp_expansion_2] is applied by [objective_rule] to Pyomo
    expressions, not to machine numbers: it is a symbolic polynomial
    whose meaning is a real function.  The expansions and the objective
    are therefore embedded over [R], with [math.exp] read as the real
    exponential.  Grid coordinates, radii and identifiers are Python
    [int]s and are embedded as [Z] and [nat]. *)

From Stdlib Require Import ZArith List Bool Lia ZifyBool.
From Stdlib Require Import Reals Lra.
From Stdlib Require Import PrimFloat.
From Stdlib Require Ascii String.
Import ListNotations.

(** ** Taylor expansions of the penalty ([ppp/minlp.py], lines 83-96) *)

Module Expansion.
Local Open Scope R_scope.

(** [exp_expansion_1(w)]: the reference point [w_0 = 6] is a local
    constant of the function body. *)
Definition exp_expansion_1 (w : R) : R :=
  let w_0 := 6 in
  let f0 := exp (0.17 * w_0) in
  let f1 := 0.17 * f0 in
  f0 + f1 * (w - w_0).

(** [exp_expansion_2(w)]. *)
Definition exp_expansion_2 (w : R) : R :=
  let w_0 := 6 in
  let f0 := exp (0.17 * w_0) in
  let f1 := 0.17 * f0 in
  let f2 := 0.17 * f1 in
  f0 + f1 * (w - w_0) + 0.5 * f2 * (w - w_0) ^ 2.

(** The reference point both bodies bind, and the coefficients they
    compute from it. *)
Definition w_0 : R := 6.
Definition f0 : R := exp (0.17 * w_0).
Definition f1 : R := 0.17 * f0.
Definition f2 : R := 0.17 * f1.

(** The term the second expansion adds to the first. *)
Definition curvature_term (w : R) : R := 0.5 * f2 * (w - w_0) ^ 2.

(** The design document's linearizer, written from its words: the
    expansion of [170 * exp (0.17 * w)] of the given order around a
    reference point [w0] that is an argument. *)
Definition expand_spec (order : nat) (w0 : R) (w : R) : R :=
  let g0 := 170 * exp (0.17 * w0) in
  let g1 := 0.17 * g0 in
  let g2 := 0.17 * g1 in
  match order with
  | 2%nat => g0 + g1 * (w - w0) + 0.5 * g2 * (w - w0) ^ 2
  | _ => g0 + g1 * (w - w0)
  end.

(** The per-cell factor [objective_rule] builds from the expansion
    (line 53: [170.0 * model.t[x, y] * exp_expansion_1(w[x][y])], without
    the decision variable). *)
Definition objective_factor (w : R) : R := 170.0 * exp_expansion_1 w.

End Expansion.

(** ** The Python run time the code relies on *)

(** Exceptions the embedded code can raise; [SolverError] stands for
    whatever the external solver raises. *)
Inductive exn : Type :=
| KeyError
| ZeroDivisionError
| ValueError
| SolverError.

(** A call either returns a value or raises. *)
Inductive outcome (A : Type) : Type :=
| Returned (a : A)
| Raised (e : exn).
Arguments Returned {A} a.
Arguments Raised {A} e.

(** The objects a mutator of the editor can hand back to its caller: a
    [return] without a value, and the end of a body, give [None]. *)
Inductive pyval : Type :=
| PyNone
| PyBool (b : bool).

(** [range(n)]. *)
Definition range (n : Z) : list Z := map Z.of_nat (seq 0 (Z.to_nat n)).

(** [range(lo, hi + 1)], the closed interval of integers. *)
Definition interval (lo hi : Z) : list Z :=
  map (fun k => lo + Z.of_nat k)%Z (seq 0 (Z.to_nat (hi + 1 - lo))).

(** [round(a / b)] for two [int]s: true division followed by Python's
    rounding to the nearest integer, ties to the even one.  The quotient
    is taken exactly (canvas coordinates are far below the precision of
    a double).  Division by zero raises. *)
Definition round_div (a b : Z) : outcome Z :=
  if (b =? 0)%Z then Raised ZeroDivisionError
  else
    let q := (a / b)%Z in
    let r := (a mod b)%Z in
    match (2 * Z.abs r ?= Z.abs b)%Z with
    | Lt => Returned q
    | Gt => Returned (q + 1)%Z
    | Eq => Returned (if Z.even q then q else (q + 1)%Z)
    end.

(** ** Points, instances and solutions

    [ppp/point.py], [ppp/instance.py] and [ppp/solution.py] are imported
    by the two embedded files but are not part of the sources at hand.
    The records below carry the attributes the embedded code reads; the
    methods are written from the design document and marked as such. *)

Module Point.

(** [Point(x, y)], with the attributes [x] and [y] the code reads. *)
Record t : Type := mk { x : Z; y : Z }.

(** Modelled from the spec: class [Point] is missing; "equality and
    hashing by coordinate pair" (section 3): the comparison of two
    [Point]s. *)
Definition eqb (p q : t) : bool := ((x p =? x q) && (y p =? y q))%Z.

(** Modelled from the spec: [Point.distance_sq] is missing; "squared
    Euclidean distance ... using exact integer arithmetic" (section 3). *)
Definition distance_sq (p q : t) : Z :=
  ((x p - x q) * (x p - x q) + (y p - y q) * (y p - y q))%Z.

(** Modelled from the spec: [Point.points_within_radius] is missing;
    section 4.1: scan the bounding box
    [[cx - r, cx + r] x [cy - r, cy + r]] intersected with the grid
    [[0, D-1] x [0, D-1]], in row-major order, and keep the points whose
    squared distance to the center is at most [r^2] (closed disk, so the
    center is kept whenever it is on the grid and [r >= 0]). *)
Definition points_within_radius (center : t) (radius : Z) (D : Z) : list t :=
  flat_map
    (fun px =>
       flat_map
         (fun py =>
            let p := mk px py in
            if (distance_sq center p <=? radius * radius)%Z then [p] else [])
         (interval (Z.max 0 (y center - radius))
                   (Z.min (D - 1) (y center + radius))))
    (interval (Z.max 0 (x center - radius))
              (Z.min (D - 1) (x center + radius))).

End Point.

(** The attributes of [Instance] the code reads
    ([instance.grid_side_length], [instance.cities],
    [instance.coverage_radius], [instance.penalty_radius]). *)
Record Instance : Type := {
  grid_side_length : Z;
  cities : list Point.t;
  coverage_radius : Z;
  penalty_radius : Z
}.

Module Solution.

(** [Solution(instance=..., towers=...)]. *)
Record t : Type := mk { instance : Instance; towers : list Point.t }.

(** Modelled from the spec: [Solution.valid] is missing; section 4.2:
    every city has a tower among the points within the coverage radius
    of the city. *)
Definition valid (s : t) : bool :=
  forallb
    (fun c =>
       existsb
         (fun tw =>
            existsb (Point.eqb tw)
              (Point.points_within_radius c
                 (coverage_radius (instance s))
                 (grid_side_length (instance s))))
         (towers s))
    (cities (instance s)).

(** Modelled from the spec: section 4.3: the number of other towers
    within the penalty radius of the tower at position [i]. *)
Definition overlap_count (s : t) (i : nat) (tw : Point.t) : nat :=
  let r := penalty_radius (instance s) in
  length
    (filter
       (fun jt : nat * Point.t =>
          negb (fst jt =? i)%nat
          && (Point.distance_sq tw (snd jt) <=? r * r)%Z)
       (combine (seq 0 (length (towers s))) (towers s))).

(** Modelled from the spec: [Solution.penalty] is missing; section 4.3:
    the sum over the towers of [170 * exp (0.17 * w)]. *)
Definition penalty (s : t) : R :=
  fold_left
    (fun acc (it : nat * Point.t) =>
       (acc + 170 * exp (0.17 * INR (overlap_count s (fst it) (snd it))))%R)
    (combine (seq 0 (length (towers s))) (towers s))
    0%R.

End Solution.

(** ** The optimization model ([ppp/minlp.py], lines 11-81) *)

Module Minlp.
Import Expansion.

(** A valuation of the indexed variable [model.t]: the value taken by
    [model.t[x, y]]. *)
Definition valuation : Type := Z -> Z -> R.

(** Lines 30-35: the left-hand side of the constraint added for a city,
    [sum(model.t[p.x, p.y] for p in points_within_radius(city, ...))
     + model.t[city.x, city.y]]. *)
Definition cover_lhs (instance : Instance) (city : Point.t) (t : valuation) : R :=
  (fold_left
     (fun acc p => acc + t (Point.x p) (Point.y p))
     (Point.points_within_radius city (coverage_radius instance)
        (grid_side_length instance))
     0
   + t (Point.x city) (Point.y city))%R.

(** [model.cover_cities]: one constraint [lhs >= 1] per city. *)
Definition cover_cities (instance : Instance) : list (valuation -> Prop) :=
  map (fun city t => (cover_lhs instance city t >= 1)%R) (cities instance).

(** Lines 43-45: the inner loop of [objective_rule] for the cell
    [(x, y)]: [w_xy] starts at [0] and receives [model.t[point.x, point.y]]
    for every point the geometry returns. *)
Definition w_xy (instance : Instance) (t : valuation) (x y : Z) : R :=
  fold_left
    (fun acc point => (acc + t (Point.x point) (Point.y point))%R)
    (Point.points_within_radius (Point.mk x y) (penalty_radius instance)
       (grid_side_length instance))
    0%R.

(** Lines 40-46: the table [w], a list of [dim] rows of [dim] entries. *)
Definition w_table (instance : Instance) (t : valuation) : list (list R) :=
  let dim := grid_side_length instance in
  map (fun x => map (fun y => w_xy instance t x y) (range dim)) (range dim).

(** [w[x][y]]. *)
Definition w_at (w : list (list R)) (x y : Z) : R :=
  nth (Z.to_nat y) (nth (Z.to_nat x) w []) 0%R.

(** Lines 39-57: [objective_rule]. *)
Definition objective_rule (instance : Instance) (t : valuation) : R :=
  let dim := grid_side_length instance in
  let w := w_table instance t in
  fold_left
    (fun cost x =>
       fold_left
         (fun cost y =>
            (cost + 170.0 * t x y * exp_expansion_1 (w_at w x y))%R)
         (range dim) cost)
    (range dim) 0.0%R.

(** The model handed to the solver. *)
Record Model : Type := {
  dimension : Z;
  constraints : list (valuation -> Prop);
  objective : valuation -> R
}.

Definition build_model (instance : Instance) : Model :=
  {| dimension := grid_side_length instance;
     constraints := cover_cities instance;
     objective := objective_rule instance |}.

(** What the external library reports about a run: the termination
    condition inside the results object. *)
Inductive TerminationCondition : Type :=
| optimal
| infeasible
| maxIterations
| maxTimeLimit
| other.

Record SolverResults : Type := { termination_condition : TerminationCondition }.

(** After [solver.solve(model)], [model.t[x, y].value] is [None] or a
    double. *)
Definition values : Type := Z -> Z -> option float.

(** The external solver is a black box: given its options and the model
    it either raises, or returns a results object and leaves values in
    the variables. *)
Definition Solver : Type := Z -> Model -> outcome (SolverResults * values).

(** [model.t[x, y].value == 1]. *)
Definition value_is_one (v : option float) : bool :=
  match v with
  | Some f => PrimFloat.eqb f 1%float
  | None => false
  end.

(** Lines 68-73: the cells whose value equals [1], [x] outermost. *)
Definition decode (dim : Z) (v : values) : list Point.t :=
  flat_map
    (fun x =>
       flat_map
         (fun y => if value_is_one (v x y) then [Point.mk x y] else [])
         (range dim))
    (range dim).

(** Line 22: [model.t] is indexed by [range(dim) x range(dim)]. *)
Definition indexed (dim : Z) (x y : Z) : bool :=
  ((0 <=? x) && (x <? dim) && ((0 <=? y) && (y <? dim)))%Z.

(** Lines 13-59: building the model can raise before the solver is
    called.  Line 20 declares [model.dimension] within
    [pyo.PositiveIntegers] with the grid side as its value, which raises
    [ValueError] for a side that is not positive.  Line 33 reads
    [model.t[city.x, city.y]], which raises [KeyError] for a city that
    is not a cell of the grid. *)
Definition construct_model (instance : Instance) : outcome Model :=
  let dim := grid_side_length instance in
  if (dim <=? 0)%Z then Raised ValueError
  else if forallb (fun city => indexed dim (Point.x city) (Point.y city))
            (cities instance)
       then Returned (build_model instance)
       else Raised KeyError.

(** Lines 11-81: [solve_minlp].  The results object is bound to
    [results] (line 66) and not read again. *)
Definition solve_minlp (solver : Solver) (instance : Instance)
  : outcome Solution.t :=
  let dim := grid_side_length instance in
  match construct_model instance with
  | Raised e => Raised e
  | Returned model =>
      match solver 100%Z model with
      | Raised e => Raised e
      | Returned (results, v) =>
          let towers := decode dim v in
          Returned (Solution.mk instance towers)
      end
  end.

(** The overlap count the design document describes for the objective:
    the sum over the same points, the cell [(x, y)] itself left out. *)
Definition w_spec_excluding_self (instance : Instance) (t : valuation) (x y : Z) : R :=
  fold_left
    (fun acc point => (acc + t (Point.x point) (Point.y point))%R)
    (filter
       (fun point => negb (Point.eqb point (Point.mk x y)))
       (Point.points_within_radius (Point.mk x y) (penalty_radius instance)
          (grid_side_length instance)))
    0%R.

End Minlp.

(** ** Python dictionaries keyed by [int]

    [self.towers] is a [dict] from identifiers to points.  A [dict]
    keeps its keys in insertion order, and [self.towers.values()] is
    read in that order, so the mapping is an association list in
    insertion order. *)

Module Dict.
Section Defs.
Context {V : Type}.

Definition t : Type := list (nat * V).

(** [d[k]] ([None] where Python raises [KeyError]). *)
Fixpoint get (k : nat) (d : t) : option V :=
  match d with
  | [] => None
  | (k', v) :: d' => if (k' =? k)%nat then Some v else get k d'
  end.

(** [k in d]. *)
Definition mem (k : nat) (d : t) : bool :=
  existsb (fun kv => (fst kv =? k)%nat) d.

(** [d[k] = v]: an existing key keeps its place, a new key goes last. *)
Fixpoint set (k : nat) (v : V) (d : t) : t :=
  match d with
  | [] => [(k, v)]
  | (k', v') :: d' =>
      if (k' =? k)%nat then (k', v) :: d' else (k', v') :: set k v d'
  end.

(** [del d[k]], for a key that is present. *)
Definition del (k : nat) (d : t) : t :=
  filter (fun kv => negb (fst kv =? k)%nat) d.

(** [len(d)]. *)
Definition len (d : t) : nat := length d.

(** [d.values()] and [d.keys()], read in order. *)
Definition values (d : t) : list V := map snd d.
Definition keys (d : t) : list nat := map fst d.

(** [dict((i, j) for i, j in enumerate(l))]. *)
Definition of_enumerate (l : list V) : t := combine (seq 0 (length l)) l.

End Defs.
Arguments t V : clear implicits.
End Dict.

(** ** The placement editor ([ppp/gui/main_gui.py])

    Only the state the mutators read and write is kept: the widgets'
    drawing calls ([create_oval], [move], [delete], [itemconfig]) do not
    reach it. *)

Module Gui.

(** What [InfoFrame] shows: the last arguments of [set_valid] and
    [set_cost], and the widgets switched by [set_selected_tower] and
    [set_adding_tower]. *)
Record InfoFrame : Type := {
  lbl_valid : option bool;
  lbl_cost : option R;
  btn_delete_enabled : bool;
  lbl_adding_shown : bool
}.

(** The [towers] argument of [Solution(...)] in [update_solution]: the
    list the application was started with, or the object
    [self.towers.values()], a live view of the canvas' dictionary. *)
Inductive towers_ref : Type :=
| TowersList (l : list Point.t)
| TowersView.

Record SolutionObj : Type := {
  sol_instance : Instance;
  sol_towers : towers_ref
}.

Record MainCanvas : Type := {
  canvas_dim : Z;
  grid_dim : Z;
  step : Z;
  instance : Instance;
  towers : Dict.t Point.t;
  selected_tower_id : option nat;
  adding_tower : bool
}.

Record Application : Type := {
  dim : Z;
  solution : SolutionObj;
  add_binding : bool;
  info_frame : InfoFrame;
  canvas : MainCanvas
}.

(** The mouse event of a click: its pixel coordinates.  [step] is the
    [int] that [__init__] computes; [do_zoom], which rescales it to a
    float, is not embedded. *)
Record Event : Type := { event_x : Z; event_y : Z }.

(** *** Field updates *)

Definition with_towers (d : Dict.t Point.t) (c : MainCanvas) : MainCanvas :=
  {| canvas_dim := canvas_dim c; grid_dim := grid_dim c; step := step c;
     instance := instance c; towers := d;
     selected_tower_id := selected_tower_id c;
     adding_tower := adding_tower c |}.

Definition with_selected_tower_id (s : option nat) (c : MainCanvas) : MainCanvas :=
  {| canvas_dim := canvas_dim c; grid_dim := grid_dim c; step := step c;
     instance := instance c; towers := towers c;
     selected_tower_id := s;
     adding_tower := adding_tower c |}.

Definition with_canvas (c : MainCanvas) (a : Application) : Application :=
  {| dim := dim a; solution := solution a; add_binding := add_binding a;
     info_frame := info_frame a; canvas := c |}.

Definition with_info_frame (f : InfoFrame) (a : Application) : Application :=
  {| dim := dim a; solution := solution a; add_binding := add_binding a;
     info_frame := f; canvas := canvas a |}.

Definition with_solution (s : SolutionObj) (a : Application) : Application :=
  {| dim := dim a; solution := s; add_binding := add_binding a;
     info_frame := info_frame a; canvas := canvas a |}.

Definition with_add_binding (b : bool) (a : Application) : Application :=
  {| dim := dim a; solution := solution a; add_binding := b;
     info_frame := info_frame a; canvas := canvas a |}.

(** *** [InfoFrame] (lines 33-65) *)

Definition set_valid (valid : bool) (f : InfoFrame) : InfoFrame :=
  {| lbl_valid := Some valid; lbl_cost := lbl_cost f;
     btn_delete_enabled := btn_delete_enabled f;
     lbl_adding_shown := lbl_adding_shown f |}.

Definition set_cost (cost : R) (f : InfoFrame) : InfoFrame :=
  {| lbl_valid := lbl_valid f; lbl_cost := Some cost;
     btn_delete_enabled := btn_delete_enabled f;
     lbl_adding_shown := lbl_adding_shown f |}.

Definition set_selected_tower (tower : option Point.t) (f : InfoFrame) : InfoFrame :=
  {| lbl_valid := lbl_valid f; lbl_cost := lbl_cost f;
     btn_delete_enabled := match tower with None => false | Some _ => true end;
     lbl_adding_shown := lbl_adding_shown f |}.

Definition set_adding_tower (on : bool) (f : InfoFrame) : InfoFrame :=
  {| lbl_valid := lbl_valid f; lbl_cost := lbl_cost f;
     btn_delete_enabled := btn_delete_enabled f;
     lbl_adding_shown := on |}.

(** *** [Application] (lines 279-320) *)

(** The towers [self.solution.towers] denotes now. *)
Definition solution_towers (a : Application) : list Point.t :=
  match sol_towers (solution a) with
  | TowersList l => l
  | TowersView => Dict.values (towers (canvas a))
  end.

(** [self.solution] as the scoring methods see it. *)
Definition current_solution (a : Application) : Solution.t :=
  Solution.mk (sol_instance (solution a)) (solution_towers a).

(** Lines 318-320: [update_info_frame(self.solution)]. *)
Definition update_info_frame (a : Application) : Application :=
  let s := current_solution a in
  with_info_frame
    (set_cost (Solution.penalty s) (set_valid (Solution.valid s) (info_frame a)))
    a.

(** Lines 292-297: [update_solution(towers)]. *)
Definition update_solution (tw : towers_ref) (a : Application) : Application :=
  update_info_frame
    (with_solution
       {| sol_instance := sol_instance (solution a); sol_towers := tw |} a).

(** Lines 283-286: [unbind_add_tower]. *)
Definition unbind_add_tower (a : Application) : Application :=
  with_add_binding false
    (with_info_frame (set_adding_tower false (info_frame a)) a).

(** Lines 279-281: [bind_add_tower]. *)
Definition bind_add_tower (a : Application) : Application :=
  with_add_binding true
    (with_info_frame (set_adding_tower true (info_frame a)) a).

(** Line 299: [Application.set_selected_tower]. *)
Definition app_set_selected_tower (tower : option Point.t) (a : Application)
  : Application :=
  with_info_frame (set_selected_tower tower (info_frame a)) a.

(** *** Methods as state transformers that may raise *)

Definition M (A : Type) : Type := Application -> outcome (A * Application).

Definition ret {A} (v : A) : M A := fun a => Returned (v, a).

Definition bind {A B} (m : M A) (k : A -> M B) : M B :=
  fun a =>
    match m a with
    | Returned (v, a') => k v a'
    | Raised e => Raised e
    end.

Definition raise {A} (e : exn) : M A := fun _ => Raised e.

Definition gets {A} (f : Application -> A) : M A := fun a => Returned (f a, a).

Definition modify (f : Application -> Application) : M unit :=
  fun a => Returned (tt, f a).

Definition lift {A} (o : outcome A) : M A :=
  fun a => match o with Returned v => Returned (v, a) | Raised e => Raised e end.

Declare Scope py_scope.
Delimit Scope py_scope with py.
Notation "x <- m ;; k" := (bind m (fun x => k))
  (at level 61, m at next level, right associativity) : py_scope.
Notation "m ;; k" := (bind m (fun _ => k))
  (at level 61, right associativity) : py_scope.
Local Open Scope py_scope.

(** [self.towers[id]]. *)
Definition towers_getitem (id : nat) : M Point.t :=
  fun a =>
    match Dict.get id (towers (canvas a)) with
    | Some p => Returned (p, a)
    | None => Raised KeyError
    end.

(** [self.towers[id] = tower]. *)
Definition towers_setitem (id : nat) (tower : Point.t) : M unit :=
  modify (fun a => with_canvas (with_towers (Dict.set id tower (towers (canvas a))) (canvas a)) a).

(** [del self.towers[id]]. *)
Definition towers_delitem (id : nat) : M unit :=
  fun a =>
    if Dict.mem id (towers (canvas a))
    then Returned (tt, with_canvas (with_towers (Dict.del id (towers (canvas a))) (canvas a)) a)
    else Raised KeyError.

(** The test of lines 110 and 130:
    [(x < 0 or x >= grid_dim) or (y < 0 or y >= grid_dim)]. *)
Definition off_grid (x y grid_dim : Z) : bool :=
  (((x <? 0) || (x >=? grid_dim)) || ((y <? 0) || (y >=? grid_dim)))%Z.

(** Lines 103-117: [move_tower(id, dx, dy)]. *)
Definition move_tower (id : nat) (dx dy : Z) : M pyval :=
  curr_tower <- towers_getitem id ;;
  let new_tower := Point.mk (Point.x curr_tower + dx) (Point.y curr_tower + dy) in
  g <- gets (fun a => grid_dim (canvas a)) ;;
  if off_grid (Point.x new_tower) (Point.y new_tower) g then ret PyNone
  else
    towers_setitem id new_tower ;;
    modify (update_solution TowersView) ;;
    ret PyNone.

(** [(x, y) == point], a tuple against a [Point].  The values of
    [self.towers] are [Point] objects (lines 81, 113, 135), and a [Point]
    is not a tuple: [minlp.py] reads [city.x] on the members of a
    [pyo.Set] built from the cities.  An object of another class never
    equals a tuple. *)
Definition tuple_eq_Point (xy : Z * Z) (point : Point.t) : bool := false.

(** Line 127: [(x, y) in self.towers.values()]. *)
Definition tuple_in_values (xy : Z * Z) (d : Dict.t Point.t) : bool :=
  existsb (tuple_eq_Point xy) (Dict.values d).

(** Lines 121-141: [add_tower(event)]. *)
Definition add_tower (event : Event) : M pyval :=
  st <- gets (fun a => step (canvas a)) ;;
  x <- lift (round_div (event_x event) st) ;;
  y <- lift (round_div (event_y event) st) ;;
  tws <- gets (fun a => towers (canvas a)) ;;
  if tuple_in_values (x, y) tws then ret PyNone
  else
    g <- gets (fun a => grid_dim (canvas a)) ;;
    if off_grid x y g then ret PyNone
    else
      let id := Dict.len tws in
      let tower := Point.mk x y in
      towers_setitem id tower ;;
      modify (update_solution TowersView) ;;
      modify unbind_add_tower ;;
      ret PyNone.

(** Lines 144-151: [remove_tower()]. *)
Definition remove_tower : M pyval :=
  sel <- gets (fun a => selected_tower_id (canvas a)) ;;
  match sel with
  | Some id =>
      towers_delitem id ;;
      modify (update_solution TowersView) ;;
      modify (fun a => with_canvas (with_selected_tower_id None (canvas a)) a) ;;
      modify (app_set_selected_tower None) ;;
      ret PyNone
  | None => ret PyNone
  end.

(** Lines 89-101, [handle_btn_1], for a click on the item tagged
    [tower_<id>]. *)
Definition select_tower (id : nat) : M pyval :=
  modify (fun a => with_canvas (with_selected_tower_id (Some id) (canvas a)) a) ;;
  tower <- towers_getitem id ;;
  modify (app_set_selected_tower (Some tower)) ;;
  ret PyNone.

(** Lines 71-87 and 248-277: the application as [__init__] leaves it.
    [self.step = self.canvas_dim // self.grid_dim] raises on an empty
    grid. *)
Definition Application_init (inst : Instance) (sol : Solution.t)
  : outcome Application :=
  let d := 720%Z in
  let g := grid_side_length inst in
  if (g =? 0)%Z then Raised ZeroDivisionError
  else
    Returned
      {| dim := d;
         solution := {| sol_instance := Solution.instance sol;
                        sol_towers := TowersList (Solution.towers sol) |};
         add_binding := false;
         info_frame := {| lbl_valid := Some (Solution.valid sol);
                          lbl_cost := Some (Solution.penalty sol);
                          btn_delete_enabled := false;
                          lbl_adding_shown := false |};
         canvas := {| canvas_dim := d; grid_dim := g; step := (d / g)%Z;
                      instance := inst;
                      towers := Dict.of_enumerate (Solution.towers sol);
                      selected_tower_id := None;
                      adding_tower := false |} |}.

(** *** The three mutations of the placement *)

Inductive mutation : Type :=
| AddTower (event : Event)
| RemoveTower
| MoveTower (id : nat) (dx dy : Z).

Definition run (m : mutation) : M pyval :=
  match m with
  | AddTower event => add_tower event
  | RemoveTower => remove_tower
  | MoveTower id dx dy => move_tower id dx dy
  end.

(** The mapping a mutation that passes the guards of its method leaves,
    [None] when a guard stops it. *)
Definition mutated_towers (m : mutation) (a : Application)
  : option (Dict.t Point.t) :=
  let c := canvas a in
  match m with
  | AddTower event =>
      match round_div (event_x event) (step c), round_div (event_y event) (step c) with
      | Returned x, Returned y =>
          if tuple_in_values (x, y) (towers c) || off_grid x y (grid_dim c)
          then None
          else Some (Dict.set (Dict.len (towers c)) (Point.mk x y) (towers c))
      | _, _ => None
      end
  | RemoveTower =>
      match selected_tower_id c with
      | Some id => if Dict.mem id (towers c) then Some (Dict.del id (towers c)) else None
      | None => None
      end
  | MoveTower id dx dy =>
      match Dict.get id (towers c) with
      | Some p =>
          if off_grid (Point.x p + dx) (Point.y p + dy) (grid_dim c) then None
          else Some (Dict.set id (Point.mk (Point.x p + dx) (Point.y p + dy)) (towers c))
      | None => None
      end
  end.

(** The state a mutator leaves once it has stored the mapping [d] and
    called [update_solution]. *)
Definition stored (d : Dict.t Point.t) (a : Application) : Application :=
  update_solution TowersView (with_canvas (with_towers d (canvas a)) a).

(** The information frame shows the validity and the penalty of the
    towers the canvas holds. *)
Definition in_sync (a : Application) : Prop :=
  let s := Solution.mk (sol_instance (solution a)) (Dict.values (towers (canvas a))) in
  current_solution a = s
  /\ lbl_valid (info_frame a) = Some (Solution.valid s)
  /\ lbl_cost (info_frame a) = Some (Solution.penalty s).

(** *** The keyboard handlers and the delete button *)

(** Lines 154-168: the arrow keys move the selected tower by one cell;
    the handlers return nothing. *)
Definition move_selected_tower_up (event : Event) : M pyval :=
  sel <- gets (fun a => selected_tower_id (canvas a)) ;;
  match sel with
  | Some id => move_tower id 0 (-1) ;; ret PyNone
  | None => ret PyNone
  end.

Definition move_selected_tower_down (event : Event) : M pyval :=
  sel <- gets (fun a => selected_tower_id (canvas a)) ;;
  match sel with
  | Some id => move_tower id 0 1 ;; ret PyNone
  | None => ret PyNone
  end.

Definition move_selected_tower_left (event : Event) : M pyval :=
  sel <- gets (fun a => selected_tower_id (canvas a)) ;;
  match sel with
  | Some id => move_tower id (-1) 0 ;; ret PyNone
  | None => ret PyNone
  end.

Definition move_selected_tower_right (event : Event) : M pyval :=
  sel <- gets (fun a => selected_tower_id (canvas a)) ;;
  match sel with
  | Some id => move_tower id 1 0 ;; ret PyNone
  | None => ret PyNone
  end.

(** Lines 289-290: [Application.remove_tower], the command of the
    delete button. *)
Definition Application_remove_tower : M pyval :=
  remove_tower ;; ret PyNone.

(** *** The events the bindings dispatch (lines 24-27, 279-286,
    308-326) *)

Inductive handler : Type :=
| AddButton
| ClickAdd (event : Event)
| ClickTower (id : nat)
| DeleteButton
| KeyUp (event : Event)
| KeyDown (event : Event)
| KeyLeft (event : Event)
| KeyRight (event : Event).

Definition handle (h : handler) : M pyval :=
  match h with
  | AddButton => modify bind_add_tower ;; ret PyNone
  | ClickAdd event => add_tower event
  | ClickTower id => select_tower id
  | DeleteButton => Application_remove_tower
  | KeyUp event => move_selected_tower_up event
  | KeyDown event => move_selected_tower_down event
  | KeyLeft event => move_selected_tower_left event
  | KeyRight event => move_selected_tower_right event
  end.

(** The displacement an arrow key asks for. *)
Definition arrow (h : handler) : option (Z * Z) :=
  match h with
  | KeyUp _ => Some (0, -1)%Z
  | KeyDown _ => Some (0, 1)%Z
  | KeyLeft _ => Some (-1, 0)%Z
  | KeyRight _ => Some (1, 0)%Z
  | _ => None
  end.

(** The states of the editor: what [__init__] leaves, and what a
    handler that returns leaves. *)
Inductive reachable : Application -> Prop :=
| reachable_init (inst : Instance) (sol : Solution.t) (a : Application) :
    Application_init inst sol = Returned a -> reachable a
| reachable_handle (h : handler) (a a' : Application) (v : pyval) :
    reachable a -> handle h a = Returned (v, a') -> reachable a'.

(** Every tower of the mapping is a cell of the grid. *)
Definition towers_on_grid (a : Application) : Prop :=
  Forall
    (fun p => off_grid (Point.x p) (Point.y p) (grid_dim (canvas a)) = false)
    (Dict.values (towers (canvas a))).

(** The bookkeeping of the editor: identifiers are not repeated, the
    selected identifier is mapped, the delete button is enabled exactly
    when a tower is selected, and the geometry is the one [__init__]
    computed. *)
Definition consistent (a : Application) : Prop :=
  NoDup (Dict.keys (towers (canvas a)))
  /\ (forall id, selected_tower_id (canvas a) = Some id ->
                 Dict.mem id (towers (canvas a)) = true)
  /\ (btn_delete_enabled (info_frame a) = true
      <-> selected_tower_id (canvas a) <> None)
  /\ (grid_dim (canvas a) = grid_side_length (instance (canvas a))
      /\ grid_dim (canvas a) <> 0
      /\ step (canvas a) = 720 / grid_dim (canvas a))%Z.

(** The state a deletion of the mapped identifier [id] leaves. *)
Definition after_delete (id : nat) (a : Application) : Application :=
  app_set_selected_tower None
    (with_canvas
       (with_selected_tower_id None
          (canvas (stored (Dict.del id (towers (canvas a))) a)))
       (stored (Dict.del id (towers (canvas a))) a)).

(** The state a click on the mapped tower [id] leaves. *)
Definition after_select (id : nat) (tower : Point.t) (a : Application)
  : Application :=
  app_set_selected_tower (Some tower)
    (with_canvas (with_selected_tower_id (Some id) (canvas a)) a).

End Gui.

(** ** Sums and sample data used to state the properties *)

(** The sum of a list of reals. *)
Definition Rsum (l : list R) : R := fold_right Rplus 0%R l.

Module Samples.
Import Minlp.

(** A one-cell grid with penalty radius [0]. *)
Definition one_cell : Instance :=
  {| grid_side_length := 1; cities := []; coverage_radius := 0;
     penalty_radius := 0 |}.

(** Every variable set to [1]. *)
Definition all_ones : valuation := fun _ _ => 1%R.

(** A solver run that reports infeasibility and loads no value. *)
Definition infeasible_solver : Solver :=
  fun _ _ => Returned ({| termination_condition := infeasible |},
                       fun _ _ => None).

(** A two-by-two grid with a city in each of two opposite corners, each
    covering only itself. *)
Definition two_cities : Instance :=
  {| grid_side_length := 2;
     cities := [Point.mk 0 0; Point.mk 1 1];
     coverage_radius := 0; penalty_radius := 0 |}.

(** A solver run stopped by its iteration budget, with one variable at
    [1] and the others at [0]. *)
Definition out_of_budget_solver : Solver :=
  fun _ _ => Returned ({| termination_condition := maxIterations |},
                       fun x y => if ((x =? 0) && (y =? 0))%Z
                                  then Some 1%float else Some 0%float).

(** Every variable left at the double [1.0]. *)
Definition all_one_values : values := fun _ _ => Some 1%float.

(** A solver run that reports an optimum with every variable at [1.0]. *)
Definition optimal_solver : Solver :=
  fun _ _ => Returned ({| termination_condition := optimal |}, all_one_values).

(** A two-by-two grid with one city, in the corner [(1, 1)]. *)
Definition one_city : Instance :=
  {| grid_side_length := 2; cities := [Point.mk 1 1];
     coverage_radius := 0; penalty_radius := 0 |}.

(** Running a method on the state a previous call left. *)
Definition exec (m : Gui.M pyval) (o : outcome Gui.Application)
  : outcome Gui.Application :=
  match o with
  | Returned a =>
      match m a with
      | Returned (_, a') => Returned a'
      | Raised e => Raised e
      end
  | Raised e => Raised e
  end.

(** The value a call returned. *)
Definition returned_value (r : outcome (pyval * Gui.Application)) : option pyval :=
  match r with
  | Returned (v, _) => Some v
  | Raised _ => None
  end.

(** On the two-by-two grid a cell is 360 pixels wide: a click in the
    cell [(0, 0)]. *)
Definition click_0_0 : Gui.Event := {| Gui.event_x := 10; Gui.event_y := 20 |}.

(** The editor opened on a solution with towers [0: (0, 1)] and
    [1: (1, 1)]. *)
Definition editor_two : outcome Gui.Application :=
  Gui.Application_init one_city
    (Solution.mk one_city [Point.mk 0 1; Point.mk 1 1]).

(** The same editor once tower [0] has been selected and deleted: the
    mapping is [1: (1, 1)]. *)
Definition editor_two_less_0 : outcome Gui.Application :=
  exec Gui.remove_tower (exec (Gui.select_tower 0) editor_two).

(** The editor opened on towers [0: (0, 0)], [1: (1, 0)], [2: (1, 1)],
    and the state once tower [0] has been selected and deleted: the
    mapping is [1: (1, 0)], [2: (1, 1)]. *)
Definition editor_three : outcome Gui.Application :=
  Gui.Application_init one_city
    (Solution.mk one_city [Point.mk 0 0; Point.mk 1 0; Point.mk 1 1]).

Definition editor_three_less_0 : outcome Gui.Application :=
  exec Gui.remove_tower (exec (Gui.select_tower 0) editor_three).

(** The editor opened on an empty solution of a grid of side 721. *)
Definition large_grid : Instance :=
  {| grid_side_length := 721; cities := []; coverage_radius := 0;
     penalty_radius := 0 |}.

Definition editor_large : outcome Gui.Application :=
  Gui.Application_init large_grid (Solution.mk large_grid []).

(** The state inside an outcome that is a return. *)
Definition returned {A : Type} (o : outcome A)
  : match o with Returned _ => A | Raised _ => unit end :=
  match o with
  | Returned a => a
  | Raised _ => tt
  end.

Definition app_two : Gui.Application := returned editor_two.
Definition app_two_less_0 : Gui.Application := returned editor_two_less_0.
Definition app_three : Gui.Application := returned editor_three.
Definition app_three_less_0 : Gui.Application := returned editor_three_less_0.
Definition app_large : Gui.Application := returned editor_large.

End Samples.


(** ** The command line ([ppp/gui/main.py], lines 19-23)

    [start] splits its argument at the slashes and builds three paths
    from the first two components; the files are then opened, which is
    outside this development. *)

Module Main.
Import Ascii String.

Definition slash : ascii := "/"%char.
Definition zero : ascii := "0"%char.

(** [s.split("/")]: the pieces between the slashes, at least one. *)
Fixpoint split (s : string) : list string :=
  match s with
  | EmptyString => [EmptyString]
  | String c s' =>
      if Ascii.eqb c slash then EmptyString :: split s'
      else
        match split s' with
        | piece :: pieces => String c piece :: pieces
        | [] => [String c EmptyString]
        end
  end.

(** [n] copies of the character [c]. *)
Fixpoint repeat_char (c : ascii) (n : nat) : string :=
  match n with
  | O => EmptyString
  | S n' => String c (repeat_char c n')
  end.

(** [s.zfill(width)]: zeros on the left up to [width] characters, put
    after a leading sign. *)
Definition zfill (width : nat) (s : string) : string :=
  if (width <=? String.length s)%nat then s
  else
    let fill := repeat_char zero (width - String.length s) in
    match s with
    | String c s' =>
        if Ascii.eqb c "+"%char || Ascii.eqb c "-"%char
        then String c (fill ++ s')
        else fill ++ s
    | EmptyString => fill
    end%string.

(** What the first lines of [start] compute, or the [IndexError] of
    [input[1]]. *)
Inductive start_paths : Type :=
| Paths (input_file solution_file output_file : string)
| IndexError.

(** Lines 20-23. *)
Definition start (input_arg : string) : start_paths :=
  let input := split input_arg in
  match input with
  | size :: id :: _ =>
      Paths ("inputs/" ++ size ++ "/" ++ zfill 3 id ++ ".in")
            ("outputs/" ++ size ++ "/" ++ zfill 3 id ++ ".out")
            ("edited/" ++ size ++ "/" ++ zfill 3 id ++ ".out")
  | _ => IndexError
  end%string.

(** The string has no slash. *)
Fixpoint no_slash (s : string) : bool :=
  match s with
  | EmptyString => true
  | String c s' => negb (Ascii.eqb c slash) && no_slash s'
  end.

(** The string starts with a sign. *)
Definition starts_with_sign (s : string) : bool :=
  match s with
  | String c _ => Ascii.eqb c "+"%char || Ascii.eqb c "-"%char
  | EmptyString => false
  end.

End Main.

(** * Properties *)

(** ** The Taylor expansions *)

Section ExpansionFacts.
Import Expansion.
Local Open Scope R_scope.

Lemma f0_pos : 0 < f0.
Proof. unfold f0. apply exp_pos. Qed.

Lemma f1_pos : 0 < f1.
Proof. unfold f1. pose proof f0_pos. lra. Qed.

Lemma f2_pos : 0 < f2.
Proof. unfold f2. pose proof f1_pos. lra. Qed.

Lemma exp_expansion_1_eq (w : R) : exp_expansion_1 w = f0 + f1 * (w - w_0).
Proof. reflexivity. Qed.

Lemma exp_expansion_2_eq (w : R) :
  exp_expansion_2 w = f0 + f1 * (w - w_0) + 0.5 * f2 * (w - w_0) ^ 2.
Proof. reflexivity. Qed.

(** The slope of the first expansion at the reference point. *)
Lemma exp_expansion_1_slope : derivable_pt_lim exp_expansion_1 w_0 f1.
Proof.
  intros eps Heps. exists (mkposreal 1 Rlt_0_1). intros h Hh _.
  replace ((exp_expansion_1 (w_0 + h) - exp_expansion_1 w_0) / h - f1) with 0.
  - rewrite Rabs_R0. exact Heps.
  - rewrite !exp_expansion_1_eq. field. exact Hh.
Qed.

(** The slope of the second expansion at the reference point. *)
Lemma exp_expansion_2_slope : derivable_pt_lim exp_expansion_2 w_0 f1.
Proof.
  pose proof f2_pos as H2.
  intros eps Heps.
  assert (Hd : 0 < eps / (0.5 * f2)).
  { apply Rdiv_lt_0_compat; lra. }
  exists (mkposreal _ Hd). intros h Hh Hlt. simpl in Hlt.
  replace ((exp_expansion_2 (w_0 + h) - exp_expansion_2 w_0) / h - f1)
    with (0.5 * f2 * h).
  - rewrite Rabs_mult. rewrite (Rabs_pos_eq (0.5 * f2)) by lra.
    apply (Rmult_lt_compat_l (0.5 * f2)) in Hlt; [| lra].
    replace (0.5 * f2 * (eps / (0.5 * f2))) with eps in Hlt; [exact Hlt |].
    field. lra.
  - rewrite !exp_expansion_2_eq. field. exact Hh.
Qed.

(** C1, as stated, fails: the value [exp_expansion_1] returns at the
    reference point is not [170 * exp (0.17 * w_0)]; the body computes
    [f0] without the factor [170]. *)
Lemma exp_expansion_1_at_w_0_not_scaled :
  exp_expansion_1 6 <> 170 * exp (0.17 * 6).
Proof.
  unfold exp_expansion_1. cbv zeta.
  pose proof (exp_pos (0.17 * 6)) as Hp. lra.
Qed.

(** C1 (amended): [exp_expansion_1] computes [f0 = exp (0.17 * 6)],
    without the factor [170], and [f1 = 0.17 * f0]; it returns
    [f0 + f1 * (w - 6)], which at [w = 6] is exactly [exp (0.17 * 6)].
    The factor [170] is the caller's: the factor [objective_rule] builds
    is [170 * exp (0.17 * 6)] at the reference point. *)
Theorem exp_expansion_1_at_w_0 :
  (forall w,
      exp_expansion_1 w = exp (0.17 * 6) + 0.17 * exp (0.17 * 6) * (w - 6))
  /\ exp_expansion_1 6 = exp (0.17 * 6)
  /\ objective_factor 6 = 170 * exp (0.17 * 6).
Proof.
  split; [| split].
  - intro w. reflexivity.
  - unfold exp_expansion_1. cbv zeta. lra.
  - unfold objective_factor, exp_expansion_1. cbv zeta. lra.
Qed.

(** C7, as stated, fails: the factor the objective uses is not the
    expansion around a reference point chosen by the caller; around
    [w0 = 0] the design's expansion is [170] at [w = 0], and the code's
    is negative there. *)
Lemma reference_point_not_overridable :
  objective_factor 0 <> expand_spec 1 0 0.
Proof.
  unfold objective_factor, exp_expansion_1, expand_spec. cbv zeta.
  pose proof (exp_pos (0.17 * 6)) as Hp.
  replace (0.17 * 0) with 0 by lra. rewrite exp_0. lra.
Qed.

(** C7 (amended): the reference point is the constant [6] bound inside
    both function bodies, whose only argument is [w]: scaled by the
    caller's [170], they are the design's expansions of order 1 and 2
    around [w0 = 6], and around no other reference point. *)
Theorem reference_point_fixed_at_6 :
  (forall w, 170 * exp_expansion_1 w = expand_spec 1 6 w)
  /\ (forall w, 170 * exp_expansion_2 w = expand_spec 2 6 w)
  /\ (forall w0, (forall w, 170 * exp_expansion_1 w = expand_spec 1 w0 w) <-> w0 = 6).
Proof.
  split; [| split].
  - intro w. unfold exp_expansion_1, expand_spec. cbv zeta. lra.
  - intro w. unfold exp_expansion_2, expand_spec. cbv zeta. lra.
  - intro w0. split.
    + intro H. specialize (H w0).
      unfold exp_expansion_1, expand_spec in H. cbv zeta in H.
      destruct (Req_dec w0 6) as [E | N]; [exact E | exfalso].
      assert (Hn : 0.17 * (w0 - 6) <> 0) by lra.
      pose proof (exp_ineq1 _ Hn) as Hi.
      pose proof (exp_pos (0.17 * 6)) as Hp.
      replace (0.17 * w0) with (0.17 * 6 + 0.17 * (w0 - 6)) in H by lra.
      rewrite exp_plus in H. nra.
    + intros -> w. unfold exp_expansion_1, expand_spec. cbv zeta. lra.
Qed.

(** C8, as stated, fails: it holds for no reference point but [6].
    For [w0 = 0] the second expansion is not the first plus
    [0.5 * f2 * (w - w0)^2], and the two do not take the same value at
    [w = w0]: at [0] they differ by [18 * f2]. *)
Lemma expansions_differ_off_reference :
  exp_expansion_2 0 <> exp_expansion_1 0 + 0.5 * f2 * (0 - 0) ^ 2
  /\ exp_expansion_2 0 <> exp_expansion_1 0.
Proof.
  pose proof f2_pos as H2.
  rewrite exp_expansion_1_eq, exp_expansion_2_eq. unfold w_0.
  split; simpl; lra.
Qed.

(** C8 (amended): for every [w], with the reference point fixed at
    [w_0 = 6], the only one the code has, the second expansion is the
    first plus [0.5 * f2 * (w - w_0)^2] with [f2 = 0.17 * f1]; the added
    term is strictly positive whenever [w <> w_0]; the two expansions
    take the same value at [w_0] and have the same slope [f1] there. *)
Theorem exp_expansion_2_adds_curvature :
  f2 = 0.17 * f1
  /\ (forall w, exp_expansion_2 w = exp_expansion_1 w + 0.5 * f2 * (w - w_0) ^ 2)
  /\ (forall w, w <> w_0 -> 0 < 0.5 * f2 * (w - w_0) ^ 2)
  /\ exp_expansion_2 w_0 = exp_expansion_1 w_0
  /\ derivable_pt_lim exp_expansion_1 w_0 f1
  /\ derivable_pt_lim exp_expansion_2 w_0 f1.
Proof.
  pose proof f2_pos as H2.
  repeat split.
  - intros w Hw.
    assert (Hsq : 0 < (w - w_0) * (w - w_0)).
    { destruct (Rtotal_order w w_0) as [Hlt | [Heq | Hgt]]; [nra | lra | nra]. }
    simpl. rewrite Rmult_1_r. nra.
  - rewrite exp_expansion_1_eq, exp_expansion_2_eq. lra.
  - exact exp_expansion_1_slope.
  - exact exp_expansion_2_slope.
Qed.

(** The curvature is positive at [w = 7]. *)
Lemma exp_expansion_2_adds_curvature_at_7 :
  7 <> w_0 /\ 0 < 0.5 * f2 * (7 - w_0) ^ 2.
Proof.
  assert (H : 7 <> w_0) by (unfold w_0; lra).
  split; [exact H |].
  exact (proj1 (proj2 (proj2 exp_expansion_2_adds_curvature)) 7 H).
Defined.

End ExpansionFacts.

(** ** The objective of the model *)

Section ObjectiveFacts.
Import Expansion Minlp.
Local Open Scope R_scope.

Lemma fold_left_Rplus {A : Type} (f : A -> R) (l : list A) (acc : R) :
  fold_left (fun a p => a + f p) l acc = acc + Rsum (map f l).
Proof.
  revert acc. induction l as [| p l IH]; intro acc; simpl.
  - lra.
  - rewrite IH. lra.
Qed.

Lemma Rsum_app (l1 l2 : list R) : Rsum (l1 ++ l2) = Rsum l1 + Rsum l2.
Proof.
  induction l1 as [| a l1 IH]; simpl; [lra | rewrite IH; lra].
Qed.

Lemma Rsum_flat_map {A B : Type} (g : A -> list B) (f : B -> R) (l : list A) :
  Rsum (map f (flat_map g l)) = Rsum (map (fun a => Rsum (map f (g a))) l).
Proof.
  induction l as [| a l IH]; simpl; [reflexivity |].
  rewrite map_app, Rsum_app, IH. reflexivity.
Qed.

Lemma Rsum_map_ext_in {A : Type} (f g : A -> R) (l : list A) :
  (forall a, In a l -> f a = g a) -> Rsum (map f l) = Rsum (map g l).
Proof.
  intro H. rewrite (map_ext_in f g l H). reflexivity.
Qed.

Lemma Rsum_map_zero {A : Type} (l : list A) : Rsum (map (fun _ => 0) l) = 0.
Proof. induction l as [| a l IH]; simpl; [reflexivity | rewrite IH; lra]. Qed.

Lemma Rsum_map_plus {A : Type} (f g : A -> R) (l : list A) :
  Rsum (map (fun a => f a + g a) l) = Rsum (map f l) + Rsum (map g l).
Proof. induction l as [| a l IH]; simpl; [lra | rewrite IH; lra]. Qed.

Lemma Rsum_map_filter {A : Type} (keep : A -> bool) (f : A -> R) (l : list A) :
  Rsum (map f (filter keep l))
  = Rsum (map (fun a => if keep a then f a else 0) l).
Proof.
  induction l as [| a l IH]; simpl; [reflexivity |].
  destruct (keep a); simpl; rewrite IH; lra.
Qed.

(** A sum over an integer interval of a term that vanishes off one
    index. *)
Lemma Rsum_seq_single (lo c : Z) (a : R) (s n : nat) :
  Rsum (map (fun k => if (lo + Z.of_nat k =? c)%Z then a else 0) (seq s n))
  = if ((lo + Z.of_nat s <=? c) && (c <? lo + Z.of_nat s + Z.of_nat n))%Z
    then a else 0.
Proof.
  revert s. induction n as [| n IH]; intro s.
  - simpl. destruct (lo + Z.of_nat s <=? c)%Z eqn:E1; simpl; [| reflexivity].
    destruct (c <? lo + Z.of_nat s + 0)%Z eqn:E2; [| reflexivity]. lia.
  - simpl seq. simpl map. simpl Rsum. rewrite IH.
    destruct (lo + Z.of_nat s =? c)%Z eqn:E0;
      destruct (lo + Z.of_nat (S s) <=? c)%Z eqn:E1;
      destruct (c <? lo + Z.of_nat (S s) + Z.of_nat n)%Z eqn:E2;
      destruct (lo + Z.of_nat s <=? c)%Z eqn:E3;
      destruct (c <? lo + Z.of_nat s + Z.of_nat (S n))%Z eqn:E4;
      simpl; try lra; exfalso; lia.
Qed.

Lemma Rsum_interval_single (lo hi c : Z) (a : R) :
  Rsum (map (fun k => if (k =? c)%Z then a else 0) (interval lo hi))
  = if ((lo <=? c) && (c <=? hi))%Z then a else 0.
Proof.
  unfold interval. rewrite map_map. rewrite Rsum_seq_single.
  destruct (lo + Z.of_nat 0 <=? c)%Z eqn:E1;
    destruct (c <? lo + Z.of_nat 0 + Z.of_nat (Z.to_nat (hi + 1 - lo)))%Z eqn:E2;
    destruct (lo <=? c)%Z eqn:E3; destruct (c <=? hi)%Z eqn:E4;
    simpl; try reflexivity; exfalso; lia.
Qed.

Lemma fold_left_Rplus_ext {A : Type} (g : R -> A -> R) (f : A -> R)
      (l : list A) (acc : R) :
  (forall a p, In p l -> g a p = a + f p) ->
  fold_left g l acc = acc + Rsum (map f l).
Proof.
  revert acc. induction l as [| p l IH]; intros acc H; simpl.
  - lra.
  - rewrite IH by (intros a q Hq; apply H; right; exact Hq).
    rewrite H by (left; reflexivity). lra.
Qed.

Lemma Point_eqb_eq (p q : Point.t) : Point.eqb p q = true <-> p = q.
Proof.
  destruct p as [px py], q as [qx qy]. unfold Point.eqb. simpl.
  rewrite andb_true_iff, !Z.eqb_eq. split.
  - intros [-> ->]. reflexivity.
  - intro H. injection H as -> ->. split; reflexivity.
Qed.

Lemma In_range (n x : Z) : In x (range n) <-> (0 <= x < n)%Z.
Proof.
  unfold range. rewrite in_map_iff. split.
  - intros [k [<- Hk]]. apply in_seq in Hk. lia.
  - intros Hx. exists (Z.to_nat x). split; [lia |]. apply in_seq. lia.
Qed.

Lemma nth_map_range {B : Type} (F : Z -> B) (d : B) (n x : Z) :
  In x (range n) -> nth (Z.to_nat x) (map F (range n)) d = F x.
Proof.
  intro Hx. apply In_range in Hx. unfold range. rewrite map_map.
  rewrite (nth_indep _ d (F (Z.of_nat 0))) by (rewrite length_map, length_seq; lia).
  rewrite (map_nth (fun k => F (Z.of_nat k))).
  rewrite seq_nth by lia. simpl. f_equal. lia.
Qed.

(** The table lookup [w[x][y]] gives the count computed for [(x, y)]. *)
Lemma w_at_w_table (inst : Instance) (t : valuation) (x y : Z) :
  In x (range (grid_side_length inst)) ->
  In y (range (grid_side_length inst)) ->
  w_at (w_table inst t) x y = w_xy inst t x y.
Proof.
  intros Hx Hy. unfold w_at, w_table. cbv zeta.
  rewrite (nth_map_range
             (fun x => map (fun y => w_xy inst t x y) (range (grid_side_length inst)))
             [] _ x Hx).
  apply (nth_map_range (fun y => w_xy inst t x y) 0 _ y Hy).
Qed.

Lemma w_xy_sum (inst : Instance) (t : valuation) (x y : Z) :
  w_xy inst t x y
  = Rsum (map (fun p => t (Point.x p) (Point.y p))
            (Point.points_within_radius (Point.mk x y) (penalty_radius inst)
               (grid_side_length inst))).
Proof. unfold w_xy. rewrite fold_left_Rplus. lra. Qed.

Lemma w_spec_excluding_self_sum (inst : Instance) (t : valuation) (x y : Z) :
  w_spec_excluding_self inst t x y
  = Rsum (map (fun p => t (Point.x p) (Point.y p))
            (filter (fun p => negb (Point.eqb p (Point.mk x y)))
               (Point.points_within_radius (Point.mk x y) (penalty_radius inst)
                  (grid_side_length inst)))).
Proof. unfold w_spec_excluding_self. rewrite fold_left_Rplus. lra. Qed.

(** The geometry lists the center exactly once when it is on the grid
    and the radius is not negative: a sum over the listed points is the
    sum over the other points plus the center's term. *)
Lemma Rsum_points_within_radius_center (f : Point.t -> R) (c : Point.t) (r D : Z) :
  (0 <= r)%Z -> (0 <= Point.x c < D)%Z -> (0 <= Point.y c < D)%Z ->
  Rsum (map f (Point.points_within_radius c r D))
  = Rsum (map f (filter (fun p => negb (Point.eqb p c))
                   (Point.points_within_radius c r D)))
    + f c.
Proof.
  intros Hr Hx Hy.
  rewrite Rsum_map_filter.
  set (L := Point.points_within_radius c r D).
  set (h := fun p => if negb (Point.eqb p c) then f p else 0).
  set (g := fun p : Point.t => if Point.eqb p c then f c else 0).
  rewrite (Rsum_map_ext_in f (fun p => h p + g p)).
  2:{ intros p _. unfold h, g. destruct (Point.eqb p c) eqn:E; simpl.
      - apply Point_eqb_eq in E. subst p. lra.
      - lra. }
  rewrite Rsum_map_plus. f_equal.
  unfold L, Point.points_within_radius.
  rewrite Rsum_flat_map.
  rewrite (Rsum_map_ext_in _
             (fun px => if (px =? Point.x c)%Z then f c else 0)).
  - rewrite Rsum_interval_single.
    destruct (Z.max 0 (Point.x c - r) <=? Point.x c)%Z eqn:E1;
      destruct (Point.x c <=? Z.min (D - 1) (Point.x c + r))%Z eqn:E2;
      simpl; try reflexivity; exfalso; lia.
  - intros px _. rewrite Rsum_flat_map.
    rewrite (Rsum_map_ext_in _
               (fun py => if (py =? Point.y c)%Z
                          then (if (px =? Point.x c)%Z then f c else 0)
                          else 0)).
    + rewrite Rsum_interval_single.
      destruct (Z.max 0 (Point.y c - r) <=? Point.y c)%Z eqn:E1;
        destruct (Point.y c <=? Z.min (D - 1) (Point.y c + r))%Z eqn:E2;
        simpl; try reflexivity; exfalso; lia.
    + intros py _. cbv zeta. unfold g, Point.eqb, Point.distance_sq. simpl.
      destruct (py =? Point.y c)%Z eqn:Ey; destruct (px =? Point.x c)%Z eqn:Ex;
        destruct ((Point.x c - px) * (Point.x c - px)
                  + (Point.y c - py) * (Point.y c - py) <=? r * r)%Z eqn:Et;
        simpl; rewrite ?Ex, ?Ey; simpl; try lra.
      exfalso. apply Z.eqb_eq in Ex, Ey. subst px py.
      rewrite !Z.sub_diag in Et. apply Z.leb_gt in Et. nia.
Qed.

(** [objective_rule] as a double sum over the cells. *)
Lemma objective_rule_sum (inst : Instance) (t : valuation) :
  objective_rule inst t
  = Rsum (map (fun x =>
                 Rsum (map (fun y => 170 * t x y * exp_expansion_1 (w_xy inst t x y))
                         (range (grid_side_length inst))))
            (range (grid_side_length inst))).
Proof.
  unfold objective_rule. cbv zeta.
  rewrite (fold_left_Rplus_ext _
             (fun x => Rsum (map (fun y => 170 * t x y * exp_expansion_1 (w_xy inst t x y))
                               (range (grid_side_length inst))))).
  - lra.
  - intros a x Hx.
    apply fold_left_Rplus_ext. intros b y Hy.
    rewrite (w_at_w_table inst t x y Hx Hy). lra.
Qed.

(** C3, as stated, fails: on the one-cell grid with every variable at
    [1], the count the code computes for the cell is [1] (the cell's own
    variable), while the count that leaves the cell out is [0]. *)
Lemma w_xy_includes_own_cell :
  w_xy Samples.one_cell Samples.all_ones 0 0
  <> w_spec_excluding_self Samples.one_cell Samples.all_ones 0 0.
Proof.
  rewrite w_xy_sum, w_spec_excluding_self_sum.
  change (Point.points_within_radius (Point.mk 0 0)
            (penalty_radius Samples.one_cell)
            (grid_side_length Samples.one_cell))
    with [Point.mk 0 0].
  unfold Samples.all_ones. simpl. lra.
Qed.

(** C3 (amended): for every cell [(x, y)], [w(x, y)] is the sum of the
    decision variables over all of
    [points_within_radius((x, y), penalty_radius, D)], the cell's own
    variable included: on the grid and for a non-negative radius it is
    the sum over the other points plus [t(x, y)].  The objective is the
    sum over all cells of [170 * t(x, y) * exp_expansion_1(w(x, y))]. *)
Theorem objective_rule_counts_own_cell (inst : Instance) (t : valuation) :
  (forall x y,
      w_xy inst t x y
      = Rsum (map (fun p => t (Point.x p) (Point.y p))
                (Point.points_within_radius (Point.mk x y) (penalty_radius inst)
                   (grid_side_length inst))))
  /\ ((0 <= penalty_radius inst)%Z ->
      forall x y,
        In x (range (grid_side_length inst)) ->
        In y (range (grid_side_length inst)) ->
        w_xy inst t x y = w_spec_excluding_self inst t x y + t x y)
  /\ objective_rule inst t
     = Rsum (map (fun x =>
                    Rsum (map (fun y => t x y * objective_factor (w_xy inst t x y))
                            (range (grid_side_length inst))))
               (range (grid_side_length inst))).
Proof.
  split; [| split].
  - intros x y. apply w_xy_sum.
  - intros Hr x y Hx Hy. apply In_range in Hx, Hy.
    rewrite w_xy_sum, w_spec_excluding_self_sum.
    apply (Rsum_points_within_radius_center
             (fun p => t (Point.x p) (Point.y p)) (Point.mk x y));
      simpl; lia.
  - rewrite objective_rule_sum.
    apply Rsum_map_ext_in. intros x _.
    apply Rsum_map_ext_in. intros y _.
    unfold objective_factor. lra.
Qed.

(** The count of the one-cell grid is the cell's own variable. *)
Lemma objective_rule_counts_own_cell_one_cell :
  w_xy Samples.one_cell Samples.all_ones 0 0
  = w_spec_excluding_self Samples.one_cell Samples.all_ones 0 0
    + Samples.all_ones 0%Z 0%Z.
Proof.
  apply (proj1 (proj2 (objective_rule_counts_own_cell
                         Samples.one_cell Samples.all_ones))).
  - simpl. lia.
  - simpl. left. reflexivity.
  - simpl. left. reflexivity.
Defined.

End ObjectiveFacts.

(** ** Decoding the solver's answer *)

Section SolveFacts.
Import Minlp.

Lemma in_decode (dim : Z) (v : values) (p : Point.t) :
  In p (decode dim v)
  <-> In (Point.x p) (range dim) /\ In (Point.y p) (range dim)
      /\ value_is_one (v (Point.x p) (Point.y p)) = true.
Proof.
  unfold decode. rewrite in_flat_map. split.
  - intros [x [Hx Hin]]. apply in_flat_map in Hin. destruct Hin as [y [Hy Hin]].
    destruct (value_is_one (v x y)) eqn:E; simpl in Hin; [| contradiction].
    destruct Hin as [<- | []]. simpl. auto.
  - intros [Hx [Hy Hv]]. exists (Point.x p). split; [exact Hx |].
    apply in_flat_map. exists (Point.y p). split; [exact Hy |].
    rewrite Hv. left. destruct p; reflexivity.
Qed.

Lemma decode_no_values (dim : Z) (v : values) :
  (forall x y, v x y = None) -> decode dim v = [].
Proof.
  intro H. unfold decode.
  assert (Hrow : forall x ys,
             flat_map (fun y => if value_is_one (v x y) then [Point.mk x y] else [])
               ys = []).
  { intros x ys. induction ys as [| y ys IH]; simpl; [reflexivity |].
    rewrite H. simpl. exact IH. }
  assert (Hall : forall xs ys,
             flat_map
               (fun x =>
                  flat_map
                    (fun y => if value_is_one (v x y) then [Point.mk x y] else [])
                    ys)
               xs = []).
  { intros xs ys. induction xs as [| x xs IH]; simpl; [reflexivity |].
    rewrite Hrow, IH. reflexivity. }
  apply Hall.
Qed.

(** C2, as stated, fails: when the solver reports infeasibility and has
    loaded no value, [solve_minlp] does not raise: it returns a solution
    with no tower, here for an instance with two cities to cover. *)
Lemma solve_minlp_returns_empty_on_infeasible :
  solve_minlp Samples.infeasible_solver Samples.two_cities
  = Returned (Solution.mk Samples.two_cities []).
Proof. reflexivity. Qed.

Lemma indexed_iff (dim x y : Z) :
  indexed dim x y = true <-> (0 <= x < dim)%Z /\ (0 <= y < dim)%Z.
Proof. unfold indexed. lia. Qed.

(** The model is built when the grid side is positive and every city is
    a cell of the grid. *)
Lemma construct_model_returns (inst : Instance) :
  (0 < grid_side_length inst)%Z ->
  (forall city, In city (cities inst) ->
                (0 <= Point.x city < grid_side_length inst)%Z
                /\ (0 <= Point.y city < grid_side_length inst)%Z) ->
  construct_model inst = Returned (build_model inst).
Proof.
  intros Hd Hc. unfold construct_model. cbv zeta.
  destruct (grid_side_length inst <=? 0)%Z eqn:E; [lia |].
  assert (Hall : forallb
                   (fun city => indexed (grid_side_length inst)
                                  (Point.x city) (Point.y city))
                   (cities inst) = true).
  { apply forallb_forall. intros city Hin. apply indexed_iff. apply Hc. exact Hin. }
  rewrite Hall. reflexivity.
Qed.

Lemma construct_model_ValueError (inst : Instance) :
  (grid_side_length inst <= 0)%Z -> construct_model inst = Raised ValueError.
Proof.
  intro Hd. unfold construct_model. cbv zeta.
  destruct (grid_side_length inst <=? 0)%Z eqn:E; [reflexivity | lia].
Qed.

Lemma construct_model_KeyError (inst : Instance) (city : Point.t) :
  (0 < grid_side_length inst)%Z ->
  In city (cities inst) ->
  ~ ((0 <= Point.x city < grid_side_length inst)%Z
     /\ (0 <= Point.y city < grid_side_length inst)%Z) ->
  construct_model inst = Raised KeyError.
Proof.
  intros Hd Hin Hoff. unfold construct_model. cbv zeta.
  destruct (grid_side_length inst <=? 0)%Z eqn:E; [lia |].
  destruct (forallb _ (cities inst)) eqn:Hall; [| reflexivity].
  exfalso. apply Hoff. apply indexed_iff.
  exact (proj1 (forallb_forall _ _) Hall city Hin).
Qed.

(** C2 (amended): [solve_minlp] does not read the results object.
    Once the model is built (the grid side is positive and every city is
    a cell of the grid), whenever the solver call returns, whatever
    termination condition it reports, [solve_minlp] returns the solution
    whose towers are the grid cells whose variable value equals [1], in
    row-major order; when no value was loaded this is the solution
    without towers. *)
Theorem solve_minlp_ignores_results
        (solver : Solver) (inst : Instance) (r : SolverResults) (v : values) :
  (0 < grid_side_length inst)%Z ->
  (forall city, In city (cities inst) ->
                (0 <= Point.x city < grid_side_length inst)%Z
                /\ (0 <= Point.y city < grid_side_length inst)%Z) ->
  solver 100%Z (build_model inst) = Returned (r, v) ->
  solve_minlp solver inst
  = Returned (Solution.mk inst (decode (grid_side_length inst) v))
  /\ (forall p,
         In p (decode (grid_side_length inst) v)
         <-> In (Point.x p) (range (grid_side_length inst))
             /\ In (Point.y p) (range (grid_side_length inst))
             /\ value_is_one (v (Point.x p) (Point.y p)) = true)
  /\ ((forall x y, v x y = None) ->
      solve_minlp solver inst = Returned (Solution.mk inst [])).
Proof.
  intros Hd Hc H. unfold solve_minlp. cbv zeta.
  rewrite (construct_model_returns inst Hd Hc), H.
  split; [reflexivity | split].
  - intro p. apply in_decode.
  - intro Hn. rewrite (decode_no_values _ _ Hn). reflexivity.
Qed.

Lemma two_cities_on_grid :
  forall city, In city (cities Samples.two_cities) ->
               (0 <= Point.x city < grid_side_length Samples.two_cities)%Z
               /\ (0 <= Point.y city < grid_side_length Samples.two_cities)%Z.
Proof.
  intros city Hc. simpl in Hc.
  destruct Hc as [<- | [<- | []]]; simpl; lia.
Defined.

(** A run stopped by its budget still yields a (partial) solution: one
    tower, for two cities that need one each. *)
Lemma solve_minlp_ignores_results_out_of_budget :
  solve_minlp Samples.out_of_budget_solver Samples.two_cities
  = Returned (Solution.mk Samples.two_cities [Point.mk 0 0])
  /\ Solution.valid (Solution.mk Samples.two_cities [Point.mk 0 0]) = false.
Proof.
  split; [| reflexivity].
  exact (proj1 (solve_minlp_ignores_results
                  Samples.out_of_budget_solver Samples.two_cities
                  {| termination_condition := maxIterations |}
                  (fun x y => if ((x =? 0) && (y =? 0))%Z
                              then Some 1%float else Some 0%float)
                  eq_refl two_cities_on_grid eq_refl)).
Defined.

End SolveFacts.

(** ** Dictionaries *)

Section DictFacts.
Context {V : Type}.
Implicit Types (d : Dict.t V) (k : nat) (v : V).

Lemma Dict_mem_get k d : Dict.mem k d = true <-> Dict.get k d <> None.
Proof.
  induction d as [| [k' v'] d IH]; simpl.
  - split; [discriminate | congruence].
  - destruct (k' =? k)%nat; simpl; [split; [discriminate | reflexivity] | exact IH].
Qed.

Lemma Dict_mem_keys k d : Dict.mem k d = true <-> In k (Dict.keys d).
Proof.
  unfold Dict.mem, Dict.keys. rewrite existsb_exists, in_map_iff. split.
  - intros [kv [Hin Hk]]. apply Nat.eqb_eq in Hk. exists kv. auto.
  - intros [kv [Hk Hin]]. exists kv. split; [exact Hin | apply Nat.eqb_eq; exact Hk].
Qed.

Lemma Dict_get_set_same k v d : Dict.get k (Dict.set k v d) = Some v.
Proof.
  induction d as [| [k' v'] d IH]; simpl.
  - rewrite Nat.eqb_refl. reflexivity.
  - destruct (k' =? k)%nat eqn:E; simpl; rewrite E; [reflexivity | exact IH].
Qed.

Lemma Dict_get_set_other k k' v d :
  k' <> k -> Dict.get k' (Dict.set k v d) = Dict.get k' d.
Proof.
  intro Hne. induction d as [| [k0 v0] d IH]; simpl.
  - destruct (k =? k')%nat eqn:E; [apply Nat.eqb_eq in E; congruence | reflexivity].
  - destruct (k0 =? k)%nat eqn:E; simpl.
    + apply Nat.eqb_eq in E. subst k0.
      destruct (k =? k')%nat eqn:E'; [apply Nat.eqb_eq in E'; congruence | reflexivity].
    + destruct (k0 =? k')%nat; [reflexivity | exact IH].
Qed.

Lemma Dict_set_fresh k v d :
  Dict.mem k d = false -> Dict.set k v d = d ++ [(k, v)].
Proof.
  induction d as [| [k' v'] d IH]; simpl; intro H; [reflexivity |].
  apply orb_false_iff in H. destruct H as [H1 H2].
  rewrite H1, (IH H2). reflexivity.
Qed.

Lemma Dict_set_present k v d :
  Dict.mem k d = true ->
  Dict.keys (Dict.set k v d) = Dict.keys d
  /\ Dict.len (Dict.set k v d) = Dict.len d.
Proof.
  unfold Dict.len.
  induction d as [| [k' v'] d IH]; simpl; intro H; [discriminate |].
  destruct (k' =? k)%nat eqn:E; simpl in *; [split; reflexivity |].
  destruct (IH H) as [IH1 IH2]. rewrite IH1, IH2. split; reflexivity.
Qed.

Lemma Dict_del_fresh k d : Dict.mem k d = false -> Dict.del k d = d.
Proof.
  unfold Dict.del.
  induction d as [| [k' v'] d IH]; simpl; intro H; [reflexivity |].
  apply orb_false_iff in H. destruct H as [H1 H2].
  rewrite H1. simpl. rewrite (IH H2). reflexivity.
Qed.

(** Deleting a key just inserted as a new one gives the dictionary back. *)
Lemma Dict_del_set_fresh k v d :
  Dict.mem k d = false -> Dict.del k (Dict.set k v d) = d.
Proof.
  intro H. rewrite (Dict_set_fresh k v d H). unfold Dict.del.
  rewrite filter_app. simpl. rewrite Nat.eqb_refl. simpl.
  rewrite app_nil_r. apply (Dict_del_fresh k d H).
Qed.

Lemma Dict_keys_del k d :
  Dict.keys (Dict.del k d) = filter (fun j => negb (j =? k)%nat) (Dict.keys d).
Proof.
  unfold Dict.keys, Dict.del.
  induction d as [| [k' v'] d IH]; simpl; [reflexivity |].
  destruct (k' =? k)%nat; simpl; rewrite IH; reflexivity.
Qed.

Lemma Dict_len_keys d : Dict.len d = length (Dict.keys d).
Proof. unfold Dict.len, Dict.keys. rewrite length_map. reflexivity. Qed.

Lemma Dict_keys_of_enumerate (l : list V) :
  Dict.keys (Dict.of_enumerate l) = seq 0 (length l).
Proof.
  unfold Dict.keys, Dict.of_enumerate.
  generalize 0%nat. induction l as [| a l IH]; intro s; simpl; [reflexivity |].
  rewrite IH. reflexivity.
Qed.

End DictFacts.

(** Removing one index from a run of consecutive ones. *)
Lemma length_filter_seq_remove (k s n : nat) :
  s <= k < s + n ->
  length (filter (fun j => negb (j =? k)%nat) (seq s n)) = n - 1.
Proof.
  revert s. induction n as [| n IH]; intros s H; [lia |].
  simpl. destruct (s =? k)%nat eqn:E; simpl.
  - apply Nat.eqb_eq in E. subst s.
    rewrite (proj2 (filter_ext_in_iff _ (fun _ => true) (seq (S k) n))).
    + rewrite filter_true, length_seq. lia.
    + intros j Hj. apply in_seq in Hj.
      destruct (j =? k)%nat eqn:E'; [apply Nat.eqb_eq in E'; lia | reflexivity].
  - apply Nat.eqb_neq in E. rewrite IH by lia. lia.
Qed.

(** ** The mutators of the editor *)

Section GuiFacts.
Import Gui.
Local Open Scope Z_scope.

Lemma off_grid_false (x y g : Z) :
  off_grid x y g = false <-> 0 <= x < g /\ 0 <= y < g.
Proof. unfold off_grid. lia. Qed.

Lemma off_grid_true (x y g : Z) :
  off_grid x y g = true <-> ~ (0 <= x <= g - 1 /\ 0 <= y <= g - 1).
Proof. unfold off_grid. lia. Qed.

Lemma move_tower_eq (a : Application) (id : nat) (dx dy : Z) (p : Point.t) :
  Dict.get id (towers (canvas a)) = Some p ->
  move_tower id dx dy a
  = if off_grid (Point.x p + dx) (Point.y p + dy) (grid_dim (canvas a))
    then Returned (PyNone, a)
    else Returned
           (PyNone,
            stored (Dict.set id (Point.mk (Point.x p + dx) (Point.y p + dy))
                      (towers (canvas a))) a).
Proof.
  intro H. unfold move_tower, bind, towers_getitem, gets, ret. rewrite H.
  simpl. destruct (off_grid _ _ _); reflexivity.
Qed.

Lemma move_tower_missing (a : Application) (id : nat) (dx dy : Z) :
  Dict.get id (towers (canvas a)) = None ->
  move_tower id dx dy a = Raised KeyError.
Proof.
  intro H. unfold move_tower, bind, towers_getitem. rewrite H. reflexivity.
Qed.

(** The membership test of line 127 is never true. *)
Lemma tuple_in_values_false (xy : Z * Z) (d : Dict.t Point.t) :
  tuple_in_values xy d = false.
Proof.
  unfold tuple_in_values, Dict.values.
  induction d as [| kv d IH]; simpl; [reflexivity | exact IH].
Qed.

Lemma add_tower_eq (a : Application) (event : Event) (x y : Z) :
  round_div (event_x event) (step (canvas a)) = Returned x ->
  round_div (event_y event) (step (canvas a)) = Returned y ->
  add_tower event a
  = if off_grid x y (grid_dim (canvas a))
    then Returned (PyNone, a)
    else Returned
           (PyNone,
            unbind_add_tower
              (stored (Dict.set (Dict.len (towers (canvas a))) (Point.mk x y)
                         (towers (canvas a))) a)).
Proof.
  intros Hx Hy. unfold add_tower, bind, gets, lift, ret. rewrite Hx, Hy.
  rewrite tuple_in_values_false.
  destruct (off_grid _ _ _); reflexivity.
Qed.

Lemma remove_tower_eq (a : Application) (id : nat) :
  selected_tower_id (canvas a) = Some id ->
  Dict.mem id (towers (canvas a)) = true ->
  remove_tower a
  = Returned
      (PyNone,
       app_set_selected_tower None
         (let a' := stored (Dict.del id (towers (canvas a))) a in
          with_canvas (with_selected_tower_id None (canvas a')) a')).
Proof.
  intros Hs Hm. unfold remove_tower, bind, gets, towers_delitem, modify, ret.
  rewrite Hs, Hm. reflexivity.
Qed.

Lemma remove_tower_nothing_selected (a : Application) :
  selected_tower_id (canvas a) = None -> remove_tower a = Returned (PyNone, a).
Proof.
  intro Hs. unfold remove_tower, bind, gets, ret. rewrite Hs. reflexivity.
Qed.

Lemma towers_stored (d : Dict.t Point.t) (a : Application) :
  towers (canvas (stored d a)) = d.
Proof. reflexivity. Qed.

Lemma in_sync_stored (d : Dict.t Point.t) (a : Application) :
  in_sync (stored d a).
Proof. unfold in_sync. repeat split. Qed.

End GuiFacts.

Section PlacementFacts.
Import Gui.
Local Open Scope Z_scope.

(** The sample states are states of the editor: each is what
    [__init__], followed by a selection and a deletion for two of them,
    leaves. *)
Lemma samples_are_editor_states :
  Samples.editor_two = Returned Samples.app_two
  /\ Samples.editor_two_less_0 = Returned Samples.app_two_less_0
  /\ Samples.editor_three = Returned Samples.app_three
  /\ Samples.editor_three_less_0 = Returned Samples.app_three_less_0.
Proof. repeat split. Qed.

(** C9: every mutation that passes the guards of its method (add,
    remove or move) returns with the new mapping stored and with the
    solution and the information frame recomputed from it: the validity
    and the cost shown are those of the towers the canvas holds after
    the mutation. *)
Theorem mutation_recomputes_validity_and_penalty
        (m : mutation) (a : Application) (d : Dict.t Point.t) :
  mutated_towers m a = Some d ->
  exists a',
    run m a = Returned (PyNone, a')
    /\ towers (canvas a') = d
    /\ in_sync a'.
Proof.
  destruct m as [event | | id dx dy]; unfold mutated_towers, run; cbv zeta.
  - destruct (round_div (event_x event) (step (canvas a))) as [x | e] eqn:Hx;
      [| discriminate].
    destruct (round_div (event_y event) (step (canvas a))) as [y | e] eqn:Hy;
      [| discriminate].
    rewrite (add_tower_eq a event x y Hx Hy), tuple_in_values_false.
    destruct (off_grid _ _ _); [discriminate |]. simpl.
    intro H. injection H as <-.
    eexists. split; [reflexivity |]. split; [reflexivity |].
    unfold in_sync. repeat split.
  - destruct (selected_tower_id (canvas a)) as [id |] eqn:Hs; [| discriminate].
    destruct (Dict.mem id (towers (canvas a))) eqn:Hm; [| discriminate].
    intro H. injection H as <-.
    rewrite (remove_tower_eq a id Hs Hm).
    eexists. split; [reflexivity |]. split; [reflexivity |].
    unfold in_sync. repeat split.
  - destruct (Dict.get id (towers (canvas a))) as [p |] eqn:Hg; [| discriminate].
    rewrite (move_tower_eq a id dx dy p Hg).
    destruct (off_grid _ _ _); [discriminate |].
    intro H. injection H as <-.
    eexists. split; [reflexivity |]. split; [reflexivity |].
    apply in_sync_stored.
Qed.

(** Moving tower [0] of the sample editor one cell to the right. *)
Lemma mutation_recomputes_validity_and_penalty_move :
  exists a',
    run (MoveTower 0 1 0) Samples.app_two = Returned (PyNone, a')
    /\ towers (canvas a') = [(0%nat, Point.mk 1 1); (1%nat, Point.mk 1 1)]
    /\ in_sync a'.
Proof.
  exact (mutation_recomputes_validity_and_penalty
           (MoveTower 0 1 0) Samples.app_two
           [(0%nat, Point.mk 1 1); (1%nat, Point.mk 1 1)] eq_refl).
Defined.

(** A call stopped by a guard of its method leaves the state as it was. *)
Lemma run_stopped_by_guard (m : mutation) (a a' : Application) (v : pyval) :
  mutated_towers m a = None ->
  run m a = Returned (v, a') ->
  v = PyNone /\ a' = a.
Proof.
  destruct m as [event | | id dx dy]; unfold mutated_towers, run; cbv zeta.
  - unfold add_tower, bind, gets, lift, ret.
    destruct (round_div (event_x event) (step (canvas a))) as [x | e];
      [| discriminate].
    destruct (round_div (event_y event) (step (canvas a))) as [y | e];
      [| discriminate].
    rewrite tuple_in_values_false. simpl.
    destruct (off_grid _ _ _); [| discriminate].
    intros _ H. injection H as <- <-. split; reflexivity.
  - unfold remove_tower, bind, gets, towers_delitem, ret.
    destruct (selected_tower_id (canvas a)) as [id |].
    + destruct (Dict.mem id (towers (canvas a))); discriminate.
    + intros _ H. injection H as <- <-. split; reflexivity.
  - unfold move_tower, bind, towers_getitem, gets, ret.
    destruct (Dict.get id (towers (canvas a))) as [p |]; [| discriminate].
    simpl. destruct (off_grid _ _ _); [| discriminate].
    intros _ H. injection H as <- <-. split; reflexivity.
Qed.

(** C6, as stated, fails: a move off the grid is not reported as a
    boolean.  Moving tower [0] of the sample editor, at [(0, 1)], one
    cell to the left returns [None] and leaves the state as it was; a
    move that succeeds returns [None] too. *)
Lemma move_tower_off_grid_returns_none :
  move_tower 0 (-1) 0 Samples.app_two = Returned (PyNone, Samples.app_two)
  /\ (forall b a', move_tower 0 (-1) 0 Samples.app_two <> Returned (PyBool b, a'))
  /\ Samples.returned_value (move_tower 0 0 (-1) Samples.app_two) = Some PyNone.
Proof.
  split; [reflexivity | split; [| reflexivity]].
  intros b a' H.
  assert (E : move_tower 0 (-1) 0 Samples.app_two
              = Returned (PyNone, Samples.app_two)) by reflexivity.
  rewrite E in H. discriminate H.
Qed.

(** C6 (amended): for a tower identifier of the mapping,
    [move_tower(id, dx, dy)] never raises and returns [None] on both
    paths.  When the resulting point lies outside
    [[0, D-1] x [0, D-1]] the whole state, and so the mapping, is left as
    it was; otherwise the point is stored under [id], the identifiers
    and every other tower are unchanged. *)
Theorem move_tower_bounds
        (a : Application) (id : nat) (dx dy : Z) (p : Point.t) :
  Dict.get id (towers (canvas a)) = Some p ->
  let D := grid_dim (canvas a) in
  let q := Point.mk (Point.x p + dx) (Point.y p + dy) in
  (~ (0 <= Point.x q <= D - 1 /\ 0 <= Point.y q <= D - 1) ->
   move_tower id dx dy a = Returned (PyNone, a))
  /\ ((0 <= Point.x q <= D - 1 /\ 0 <= Point.y q <= D - 1) ->
      exists a',
        move_tower id dx dy a = Returned (PyNone, a')
        /\ towers (canvas a') = Dict.set id q (towers (canvas a))
        /\ Dict.get id (towers (canvas a')) = Some q
        /\ (forall id', id' <> id ->
              Dict.get id' (towers (canvas a')) = Dict.get id' (towers (canvas a)))
        /\ Dict.keys (towers (canvas a')) = Dict.keys (towers (canvas a))).
Proof.
  intros Hg D q. rewrite (move_tower_eq a id dx dy p Hg). fold D. split.
  - intro Hout. apply off_grid_true in Hout. simpl in Hout. rewrite Hout.
    reflexivity.
  - intro Hin.
    assert (Hoff : off_grid (Point.x p + dx) (Point.y p + dy) D = false).
    { apply off_grid_false. simpl in Hin. lia. }
    rewrite Hoff. eexists. split; [reflexivity |].
    rewrite towers_stored. fold q. split; [reflexivity |].
    split; [apply Dict_get_set_same |].
    split; [intros id' Hne; apply Dict_get_set_other; exact Hne |].
    apply Dict_set_present. apply Dict_mem_get. rewrite Hg. discriminate.
Qed.

(** Tower [1] of the sample editor, at [(1, 1)]: one cell to the right
    is off the grid, one cell up is on it. *)
Lemma move_tower_bounds_sample :
  move_tower 1 1 0 Samples.app_two = Returned (PyNone, Samples.app_two)
  /\ exists a',
       move_tower 1 0 (-1) Samples.app_two = Returned (PyNone, a')
       /\ towers (canvas a') = [(0%nat, Point.mk 0 1); (1%nat, Point.mk 1 0)].
Proof.
  pose proof (move_tower_bounds Samples.app_two 1 1 0 (Point.mk 1 1) eq_refl) as H1.
  pose proof (move_tower_bounds Samples.app_two 1 0 (-1) (Point.mk 1 1) eq_refl) as H2.
  cbv zeta in H1, H2. split.
  - apply (proj1 H1). simpl. lia.
  - destruct (proj2 H2) as [a' [Hm [Ht _]]]; [simpl; lia |].
    exists a'. split; [exact Hm | exact Ht].
Defined.

(** A click on an occupied cell of the grid is not refused: the test
    of line 127 compares a tuple with the [Point]s of the mapping and
    never holds, so the tower is stored like any other. *)
Lemma add_tower_on_occupied_cell
      (a : Application) (event : Event) (x y : Z) :
  round_div (event_x event) (step (canvas a)) = Returned x ->
  round_div (event_y event) (step (canvas a)) = Returned y ->
  In (Point.mk x y) (Dict.values (towers (canvas a))) ->
  off_grid x y (grid_dim (canvas a)) = false ->
  exists a',
    add_tower event a = Returned (PyNone, a')
    /\ towers (canvas a')
       = Dict.set (Dict.len (towers (canvas a))) (Point.mk x y) (towers (canvas a)).
Proof.
  intros Hx Hy _ Hoff. rewrite (add_tower_eq a event x y Hx Hy), Hoff.
  eexists. split; reflexivity.
Qed.

(** C5 fails on the code.  In the editor opened on towers [0: (0, 1)]
    and [1: (1, 1)], a click that snaps to the cell [(1, 1)] is not
    refused: [add_tower] returns [None] and stores a third tower on the
    cell of tower [1]; and moving tower [0] one cell to the right puts it
    on the cell of tower [1] too.  Neither call reports a failure, and
    both change the mapping. *)
Theorem occupied_cell_not_refused :
  towers (canvas Samples.app_two) = [(0%nat, Point.mk 0 1); (1%nat, Point.mk 1 1)]
  /\ (exists added,
         add_tower {| event_x := 300; event_y := 400 |} Samples.app_two
         = Returned (PyNone, added)
         /\ towers (canvas added)
            = [(0%nat, Point.mk 0 1); (1%nat, Point.mk 1 1); (2%nat, Point.mk 1 1)])
  /\ (exists moved,
         move_tower 0 1 0 Samples.app_two = Returned (PyNone, moved)
         /\ towers (canvas moved)
            = [(0%nat, Point.mk 1 1); (1%nat, Point.mk 1 1)]).
Proof.
  split; [reflexivity |]. split.
  - exists (unbind_add_tower
              (stored [(0%nat, Point.mk 0 1); (1%nat, Point.mk 1 1);
                       (2%nat, Point.mk 1 1)] Samples.app_two)).
    split; [| reflexivity].
    apply (add_tower_eq Samples.app_two {| event_x := 300; event_y := 400 |} 1 1);
      reflexivity.
  - exists (stored [(0%nat, Point.mk 1 1); (1%nat, Point.mk 1 1)] Samples.app_two).
    split; reflexivity.
Qed.

(** Adding under a new identifier and then deleting that identifier
    gives the mapping back. *)
Lemma add_then_remove_new_identifier
      (a : Application) (event : Event) (x y : Z) :
  round_div (event_x event) (step (canvas a)) = Returned x ->
  round_div (event_y event) (step (canvas a)) = Returned y ->
  existsb (Point.eqb (Point.mk x y)) (Dict.values (towers (canvas a))) = false ->
  off_grid x y (grid_dim (canvas a)) = false ->
  Dict.mem (Dict.len (towers (canvas a))) (towers (canvas a)) = false ->
  exists a1 a2 a3,
    add_tower event a = Returned (PyNone, a1)
    /\ select_tower (Dict.len (towers (canvas a))) a1 = Returned (PyNone, a2)
    /\ remove_tower a2 = Returned (PyNone, a3)
    /\ towers (canvas a3) = towers (canvas a)
    /\ in_sync a3.
Proof.
  intros Hx Hy Hocc Hoff Hfresh.
  set (id := Dict.len (towers (canvas a))) in *.
  set (d := Dict.set id (Point.mk x y) (towers (canvas a))).
  assert (Hget : Dict.get id d = Some (Point.mk x y)) by apply Dict_get_set_same.
  assert (Hmem : Dict.mem id d = true).
  { apply Dict_mem_get. rewrite Hget. discriminate. }
  rewrite (add_tower_eq a event x y Hx Hy), Hoff. fold id. fold d.
  eexists. eexists. eexists. split; [reflexivity |]. split.
  - unfold select_tower, bind, modify, towers_getitem, ret. simpl.
    rewrite Hget. reflexivity.
  - split.
    + apply remove_tower_eq; [reflexivity | exact Hmem].
    + split.
      * simpl. unfold d. apply Dict_del_set_fresh. exact Hfresh.
      * unfold in_sync. repeat split.
Qed.

(** C4 fails on the code.  In the editor opened on towers [0: (0, 1)]
    and [1: (1, 1)], once tower [0] has been deleted the mapping is
    [1: (1, 1)] and the placement is valid.  Adding a tower in the cell
    [(0, 0)] gives it the identifier [1], the number of towers, which
    overwrites the tower at [(1, 1)]; deleting identifier [1] then leaves
    no tower: the mapping, the validity and the penalty are not those
    before the add. *)
Theorem add_then_remove_loses_tower :
  let before := Samples.app_two_less_0 in
  towers (canvas before) = [(1%nat, Point.mk 1 1)]
  /\ lbl_valid (info_frame before) = Some true
  /\ exists added selected after,
       add_tower Samples.click_0_0 before = Returned (PyNone, added)
       /\ towers (canvas added) = [(1%nat, Point.mk 0 0)]
       /\ select_tower 1 added = Returned (PyNone, selected)
       /\ remove_tower selected = Returned (PyNone, after)
       /\ towers (canvas after) = []
       /\ lbl_valid (info_frame after) = Some false
       /\ Solution.penalty (current_solution after)
          <> Solution.penalty (current_solution before).
Proof.
  cbv zeta. split; [reflexivity |]. split; [reflexivity |].
  set (before := Samples.app_two_less_0).
  set (added := unbind_add_tower (stored [(1%nat, Point.mk 0 0)] before)).
  set (selected :=
         app_set_selected_tower (Some (Point.mk 0 0))
           (with_canvas (with_selected_tower_id (Some 1%nat) (canvas added)) added)).
  exists added, selected.
  eexists. split; [reflexivity |]. split; [reflexivity |].
  split; [reflexivity |].
  split; [apply (remove_tower_eq selected 1); reflexivity |].
  split; [reflexivity |]. split; [reflexivity |].
  unfold Solution.penalty, current_solution, solution_towers. simpl.
  pose proof (exp_pos (0.17 * 0)) as Hp. lra.
Qed.

(** C10, as stated, fails: in the editor whose mapping is [1: (1, 0)],
    [2: (1, 1)], deleting tower [1], which is not the one with the
    largest identifier, leaves [2: (1, 1)]; the next add uses the
    identifier [1], which is not mapped, and the mapping grows. *)
Lemma add_after_remove_new_identifier :
  towers (canvas Samples.app_three_less_0)
  = [(1%nat, Point.mk 1 0); (2%nat, Point.mk 1 1)]
  /\ exists selected removed added,
       select_tower 1 Samples.app_three_less_0 = Returned (PyNone, selected)
       /\ remove_tower selected = Returned (PyNone, removed)
       /\ towers (canvas removed) = [(2%nat, Point.mk 1 1)]
       /\ Dict.mem (Dict.len (towers (canvas removed))) (towers (canvas removed))
          = false
       /\ add_tower Samples.click_0_0 removed = Returned (PyNone, added)
       /\ towers (canvas added) = [(2%nat, Point.mk 1 1); (1%nat, Point.mk 0 0)].
Proof.
  split; [reflexivity |].
  set (a := Samples.app_three_less_0).
  set (selected :=
         app_set_selected_tower (Some (Point.mk 1 0))
           (with_canvas (with_selected_tower_id (Some 1%nat) (canvas a)) a)).
  set (removed :=
         app_set_selected_tower None
           (with_canvas
              (with_selected_tower_id None
                 (canvas (stored [(2%nat, Point.mk 1 1)] selected)))
              (stored [(2%nat, Point.mk 1 1)] selected))).
  set (added :=
         unbind_add_tower
           (stored [(2%nat, Point.mk 1 1); (1%nat, Point.mk 0 0)] removed)).
  exists selected, removed, added.
  split; [reflexivity |].
  split; [apply (remove_tower_eq selected 1); reflexivity |].
  split; [reflexivity |]. split; [reflexivity |].
  split; [apply (add_tower_eq removed Samples.click_0_0 0 0); reflexivity |].
  reflexivity.
Qed.

(** C10 (amended): an add that passes its guards stores the new tower
    under the identifier equal to the current number of towers; it
    replaces the tower mapped there, without enlarging the mapping,
    exactly when that number is a mapped identifier, and otherwise
    appends a new entry.  When the identifiers are [0 .. n-1], deleting
    a tower whose identifier is not the largest leaves [n - 1] towers
    with the identifier [n - 1] still mapped, so the next add replaces
    the tower at [n - 1]. *)
Theorem add_tower_identifier :
  (forall (a : Application) (event : Event) (x y : Z),
      round_div (event_x event) (step (canvas a)) = Returned x ->
      round_div (event_y event) (step (canvas a)) = Returned y ->
      existsb (Point.eqb (Point.mk x y)) (Dict.values (towers (canvas a))) = false ->
      off_grid x y (grid_dim (canvas a)) = false ->
      let d := towers (canvas a) in
      let id := Dict.len d in
      exists a',
        add_tower event a = Returned (PyNone, a')
        /\ towers (canvas a') = Dict.set id (Point.mk x y) d
        /\ Dict.get id (towers (canvas a')) = Some (Point.mk x y)
        /\ (Dict.mem id d = true ->
            Dict.keys (towers (canvas a')) = Dict.keys d
            /\ Dict.len (towers (canvas a')) = Dict.len d)
        /\ (Dict.mem id d = false ->
            towers (canvas a') = d ++ [(id, Point.mk x y)]))
  /\ (forall (a0 a : Application) (k n : nat) (event : Event) (x y : Z),
         Dict.keys (towers (canvas a0)) = seq 0 n ->
         selected_tower_id (canvas a0) = Some k ->
         (k + 1 < n)%nat ->
         remove_tower a0 = Returned (PyNone, a) ->
         round_div (event_x event) (step (canvas a)) = Returned x ->
         round_div (event_y event) (step (canvas a)) = Returned y ->
         existsb (Point.eqb (Point.mk x y)) (Dict.values (towers (canvas a))) = false ->
         off_grid x y (grid_dim (canvas a)) = false ->
         exists a',
           add_tower event a = Returned (PyNone, a')
           /\ Dict.len (towers (canvas a)) = (n - 1)%nat
           /\ Dict.mem (n - 1) (towers (canvas a)) = true
           /\ towers (canvas a') = Dict.set (n - 1) (Point.mk x y) (towers (canvas a))
           /\ Dict.get (n - 1) (towers (canvas a')) = Some (Point.mk x y)
           /\ Dict.keys (towers (canvas a')) = Dict.keys (towers (canvas a))
           /\ Dict.len (towers (canvas a')) = (n - 1)%nat).
Proof.
  split.
  - intros a event x y Hx Hy Hocc Hoff d id.
    rewrite (add_tower_eq a event x y Hx Hy), Hoff. fold d. fold id.
    eexists. split; [reflexivity |].
    split; [reflexivity |].
    split; [apply Dict_get_set_same |].
    split.
    + intro Hm. apply Dict_set_present. exact Hm.
    + intro Hm. apply Dict_set_fresh. exact Hm.
  - intros a0 a k n event x y Hkeys Hsel Hk Hrem Hx Hy Hocc Hoff.
    assert (Hm : Dict.mem k (towers (canvas a0)) = true).
    { apply Dict_mem_keys. rewrite Hkeys. apply in_seq. lia. }
    rewrite (remove_tower_eq a0 k Hsel Hm) in Hrem.
    injection Hrem as Ha.
    assert (Hd : towers (canvas a) = Dict.del k (towers (canvas a0))).
    { rewrite <- Ha. reflexivity. }
    assert (Hlen : Dict.len (towers (canvas a)) = (n - 1)%nat).
    { rewrite Hd, Dict_len_keys, Dict_keys_del, Hkeys.
      apply length_filter_seq_remove. lia. }
    assert (Hmem : Dict.mem (n - 1) (towers (canvas a)) = true).
    { apply Dict_mem_keys. rewrite Hd, Dict_keys_del, Hkeys.
      apply filter_In. split.
      - apply in_seq. lia.
      - apply negb_true_iff. apply Nat.eqb_neq. lia. }
    rewrite (add_tower_eq a event x y Hx Hy), Hoff, Hlen.
    eexists. split; [reflexivity |].
    split; [reflexivity |]. split; [exact Hmem |].
    split; [reflexivity |].
    change (towers (canvas (unbind_add_tower
                              (stored (Dict.set (n - 1) (Point.mk x y)
                                         (towers (canvas a))) a))))
      with (Dict.set (n - 1) (Point.mk x y) (towers (canvas a))).
    split; [apply Dict_get_set_same |].
    destruct (Dict_set_present (n - 1)%nat (Point.mk x y) _ Hmem) as [Hk' Hl'].
    split; [exact Hk' |]. rewrite Hl'. exact Hlen.
Qed.

(** In the editor opened on three towers, with tower [0] deleted, a
    click in the cell [(0, 0)] stores the tower under the identifier
    [2] and replaces the tower at [(1, 1)]. *)
Lemma add_tower_identifier_sample :
  exists a',
    add_tower Samples.click_0_0 Samples.app_three_less_0 = Returned (PyNone, a')
    /\ Dict.len (towers (canvas Samples.app_three_less_0)) = 2%nat
    /\ Dict.mem 2 (towers (canvas Samples.app_three_less_0)) = true
    /\ towers (canvas a') = [(1%nat, Point.mk 1 0); (2%nat, Point.mk 0 0)].
Proof.
  destruct (proj2 add_tower_identifier
              (app_set_selected_tower (Some (Point.mk 0 0))
                 (with_canvas (with_selected_tower_id (Some 0%nat)
                                 (canvas Samples.app_three))
                    Samples.app_three))
              Samples.app_three_less_0 0%nat 3%nat Samples.click_0_0 0 0)
    as [a' [Hadd [Hlen [Hmem [Ht _]]]]].
  - reflexivity.
  - reflexivity.
  - lia.
  - apply (remove_tower_eq _ 0); reflexivity.
  - reflexivity.
  - reflexivity.
  - reflexivity.
  - reflexivity.
  - exists a'. split; [exact Hadd |]. split; [exact Hlen |].
    split; [exact Hmem | exact Ht].
Defined.

End PlacementFacts.

(** ** Further properties of the expansions *)

Section ExpansionBounds.
Import Expansion.
Local Open Scope R_scope.

Lemma exp_shift (w : R) : exp (0.17 * w) = f0 * exp (0.17 * (w - w_0)).
Proof.
  unfold f0, w_0. rewrite <- exp_plus. f_equal. lra.
Qed.

(** The tangent of [exp (0.17 * w)] at [6] lies below the curve and
    touches it only at [6]: [exp_expansion_1] never overestimates the
    exponential it replaces. *)
Theorem exp_expansion_1_below_exp (w : R) :
  exp_expansion_1 w <= exp (0.17 * w)
  /\ (exp_expansion_1 w = exp (0.17 * w) <-> w = 6).
Proof.
  pose proof f0_pos as H0.
  rewrite exp_shift, exp_expansion_1_eq. unfold f1, w_0.
  split.
  - pose proof (exp_ineq1_le (0.17 * (w - 6))) as Hle. nra.
  - split.
    + intro He. destruct (Req_dec w 6) as [E | N]; [exact E | exfalso].
      assert (Hn : 0.17 * (w - 6) <> 0) by lra.
      pose proof (exp_ineq1 _ Hn) as Hlt. nra.
    + intros ->. replace (0.17 * (6 - 6)) with 0 by lra. rewrite exp_0. lra.
Qed.

(** [exp_expansion_1] is strictly increasing and changes sign at
    [w = 2/17]: it is negative for a count of [0]. *)
Theorem exp_expansion_1_sign :
  (forall a b, a < b -> exp_expansion_1 a < exp_expansion_1 b)
  /\ (forall w, 0 < exp_expansion_1 w <-> 2 / 17 < w)
  /\ exp_expansion_1 0 < 0.
Proof.
  pose proof f0_pos as H0.
  assert (Hform : forall w, exp_expansion_1 w = f0 * (0.17 * w - 0.02)).
  { intro w. rewrite exp_expansion_1_eq. unfold f1, w_0. lra. }
  split; [| split].
  - intros a b Hab. rewrite !Hform. nra.
  - intro w. rewrite Hform. split; intro H.
    + destruct (Rlt_le_dec (2 / 17) w) as [Hlt | Hle]; [exact Hlt | exfalso].
      assert (0.17 * w - 0.02 <= 0) by lra. nra.
    + assert (0 < 0.17 * w - 0.02) by lra. nra.
  - rewrite Hform. nra.
Qed.

Lemma exp_expansion_1_sign_at_1 :
  exp_expansion_1 0 < exp_expansion_1 1 /\ 0 < exp_expansion_1 1.
Proof.
  split.
  - apply (proj1 exp_expansion_1_sign). lra.
  - apply (proj1 (proj2 exp_expansion_1_sign)). lra.
Defined.

(** The second-order remainder of the exponential. *)
Lemma exp_order_2_slope (c : R) :
  derivable_pt_lim (fun y => exp y - (1 + y + y * y / 2)) c (exp c - (1 + c)).
Proof.
  apply (derivable_pt_lim_minus exp (fun y => 1 + y + y * y / 2)).
  - apply derivable_pt_lim_exp.
  - intros eps Heps.
    assert (Hd : 0 < 2 * eps) by lra.
    exists (mkposreal _ Hd). intros h Hh Hlt. simpl in Hlt.
    replace ((1 + (c + h) + (c + h) * (c + h) / 2 - (1 + c + c * c / 2)) / h
             - (1 + c)) with (h / 2) by (field; exact Hh).
    unfold Rdiv. rewrite Rabs_mult. rewrite (Rabs_pos_eq (/ 2)) by lra. lra.
Qed.

Lemma exp_order_2_bound (y : R) :
  (0 <= y -> 1 + y + y * y / 2 <= exp y)
  /\ (y <= 0 -> exp y <= 1 + y + y * y / 2).
Proof.
  set (g := fun y => exp y - (1 + y + y * y / 2)).
  assert (Hg0 : g 0 = 0) by (unfold g; rewrite exp_0; lra).
  split; intro Hy.
  - destruct (Req_dec y 0) as [-> | Hne]; [rewrite exp_0; lra |].
    destruct (MVT_cor2 g (fun c => exp c - (1 + c)) 0 y) as [c [Hc _]];
      [lra | intros c _; apply exp_order_2_slope |].
    pose proof (exp_ineq1_le c) as Hle.
    assert (0 <= g y) by nra. unfold g in H. lra.
  - destruct (Req_dec y 0) as [-> | Hne]; [rewrite exp_0; lra |].
    destruct (MVT_cor2 g (fun c => exp c - (1 + c)) y 0) as [c [Hc _]];
      [lra | intros c _; apply exp_order_2_slope |].
    pose proof (exp_ineq1_le c) as Hle.
    assert (g y <= 0) by nra. unfold g in H. lra.
Qed.

(** [exp_expansion_2] is positive for every count, and crosses the
    exponential at [6]: it lies below it for larger counts and above it
    for smaller ones. *)
Theorem exp_expansion_2_against_exp (w : R) :
  0 < exp_expansion_2 w
  /\ (6 <= w -> exp_expansion_2 w <= exp (0.17 * w))
  /\ (w <= 6 -> exp (0.17 * w) <= exp_expansion_2 w).
Proof.
  pose proof f0_pos as H0.
  assert (Hform : exp_expansion_2 w
                  = f0 * (1 + 0.17 * (w - 6)
                          + (0.17 * (w - 6)) * (0.17 * (w - 6)) / 2)).
  { rewrite exp_expansion_2_eq. unfold f2, f1, w_0. simpl. lra. }
  rewrite exp_shift, Hform. unfold w_0.
  set (y := 0.17 * (w - 6)).
  destruct (exp_order_2_bound y) as [Hup Hdown].
  split; [| split].
  - assert (0 < 1 + y + y * y / 2) by nra. nra.
  - intro Hw. assert (0 <= y) by (unfold y; lra). specialize (Hup H). nra.
  - intro Hw. assert (y <= 0) by (unfold y; lra). specialize (Hdown H). nra.
Qed.

Lemma exp_expansion_2_against_exp_at_7 :
  exp_expansion_2 7 <= exp (0.17 * 7).
Proof.
  apply (proj1 (proj2 (exp_expansion_2_against_exp 7))). lra.
Defined.

End ExpansionBounds.

(** ** More on dictionaries *)

Section DictMoreFacts.
Context {V : Type}.
Implicit Types (d : Dict.t V) (k : nat) (v : V).

Lemma Dict_values_of_enumerate (l : list V) :
  Dict.values (Dict.of_enumerate l) = l.
Proof.
  unfold Dict.values, Dict.of_enumerate.
  generalize 0%nat. induction l as [| a l IH]; intro s; simpl; [reflexivity |].
  rewrite IH. reflexivity.
Qed.

Lemma Dict_get_of_enumerate (l : list V) (i : nat) :
  Dict.get i (Dict.of_enumerate l) = nth_error l i.
Proof.
  unfold Dict.of_enumerate.
  assert (H : forall s j, Dict.get (s + j) (combine (seq s (length l)) l)
                          = nth_error l j).
  { induction l as [| a l IH]; intros s j; simpl.
    - destruct j; reflexivity.
    - destruct j as [| j].
      + rewrite Nat.add_0_r, Nat.eqb_refl. reflexivity.
      + destruct (s =? s + S j)%nat eqn:E; [apply Nat.eqb_eq in E; lia |].
        replace (s + S j)%nat with (S s + j)%nat by lia. apply IH. }
  apply (H 0%nat i).
Qed.

Lemma Dict_mem_set k k' v d :
  Dict.mem k' (Dict.set k v d) = ((k' =? k)%nat || Dict.mem k' d).
Proof.
  induction d as [| [k0 v0] d IH]; simpl.
  - rewrite !orb_false_r. apply Nat.eqb_sym.
  - destruct (k0 =? k)%nat eqn:E; simpl.
    + apply Nat.eqb_eq in E. subst k0.
      destruct (k =? k')%nat eqn:E'; simpl.
      * rewrite orb_true_r. reflexivity.
      * rewrite Nat.eqb_sym, E'. reflexivity.
    + rewrite IH. destruct (k0 =? k')%nat; simpl;
        [rewrite orb_true_r; reflexivity | reflexivity].
Qed.

Lemma Dict_keys_set_fresh k v d :
  Dict.mem k d = false -> Dict.keys (Dict.set k v d) = Dict.keys d ++ [k].
Proof.
  intro H. rewrite (Dict_set_fresh k v d H). unfold Dict.keys.
  rewrite map_app. reflexivity.
Qed.

Lemma Dict_NoDup_set k v d :
  NoDup (Dict.keys d) -> NoDup (Dict.keys (Dict.set k v d)).
Proof.
  intro H. destruct (Dict.mem k d) eqn:E.
  - rewrite (proj1 (Dict_set_present k v d E)). exact H.
  - rewrite (Dict_keys_set_fresh k v d E).
    apply NoDup_app; [exact H | repeat constructor; intros [] |].
    intros j Hj [<- | []].
    apply Dict_mem_keys in Hj. congruence.
Qed.

Lemma Dict_NoDup_del k d :
  NoDup (Dict.keys d) -> NoDup (Dict.keys (Dict.del k d)).
Proof.
  intro H. rewrite Dict_keys_del. apply NoDup_filter. exact H.
Qed.

Lemma Dict_mem_del k k' d :
  Dict.mem k' (Dict.del k d) = (negb (k' =? k)%nat && Dict.mem k' d).
Proof.
  unfold Dict.del. induction d as [| [k0 v0] d IH]; simpl.
  - rewrite andb_false_r. reflexivity.
  - destruct (k0 =? k)%nat eqn:E; simpl.
    + apply Nat.eqb_eq in E. subst k0. rewrite IH.
      destruct (k =? k')%nat eqn:E'; simpl; [| reflexivity].
      apply Nat.eqb_eq in E'. subst k'. rewrite Nat.eqb_refl. reflexivity.
    + rewrite IH. destruct (k0 =? k')%nat eqn:E'; simpl; [| reflexivity].
      apply Nat.eqb_eq in E'. subst k'. rewrite E. reflexivity.
Qed.

Lemma Dict_get_del_other k k' d :
  k' <> k -> Dict.get k' (Dict.del k d) = Dict.get k' d.
Proof.
  intro Hne. unfold Dict.del. induction d as [| [k0 v0] d IH]; simpl;
    [reflexivity |].
  destruct (k0 =? k)%nat eqn:E; simpl.
  - apply Nat.eqb_eq in E. subst k0.
    destruct (k =? k')%nat eqn:E'; [apply Nat.eqb_eq in E'; congruence | exact IH].
  - rewrite IH. reflexivity.
Qed.

Lemma Dict_get_del_same k d : Dict.get k (Dict.del k d) = None.
Proof.
  destruct (Dict.get k (Dict.del k d)) eqn:E; [| reflexivity].
  assert (H : Dict.mem k (Dict.del k d) = true).
  { apply Dict_mem_get. rewrite E. discriminate. }
  rewrite Dict_mem_del, Nat.eqb_refl in H. discriminate.
Qed.

(** Deleting a key of a dictionary without repeated keys removes one
    entry. *)
Lemma Dict_len_del k d :
  NoDup (Dict.keys d) -> Dict.mem k d = true ->
  S (Dict.len (Dict.del k d)) = Dict.len d.
Proof.
  unfold Dict.len, Dict.del.
  induction d as [| [k0 v0] d IH]; simpl; intros Hnd Hm; [discriminate |].
  inversion Hnd as [| ? ? Hnotin Hnd']; subst.
  destruct (k0 =? k)%nat eqn:E; simpl.
  - apply Nat.eqb_eq in E. subst k0. f_equal.
    assert (Hf : Dict.mem k d = false).
    { destruct (Dict.mem k d) eqn:E'; [| reflexivity].
      apply Dict_mem_keys in E'. contradiction. }
    pose proof (Dict_del_fresh k d Hf) as Hd. unfold Dict.del in Hd.
    rewrite Hd. reflexivity.
  - f_equal. apply IH; assumption.
Qed.

Lemma Dict_set_set k v v' d : Dict.set k v (Dict.set k v' d) = Dict.set k v d.
Proof.
  induction d as [| [k0 v0] d IH]; simpl.
  - rewrite Nat.eqb_refl. reflexivity.
  - destruct (k0 =? k)%nat eqn:E; simpl; rewrite E; [reflexivity |].
    rewrite IH. reflexivity.
Qed.

Lemma Dict_set_get k v d : Dict.get k d = Some v -> Dict.set k v d = d.
Proof.
  induction d as [| [k0 v0] d IH]; simpl; [discriminate |].
  destruct (k0 =? k)%nat eqn:E.
  - intro H. injection H as ->. reflexivity.
  - intro H. rewrite (IH H). reflexivity.
Qed.

Lemma Dict_values_set_Forall (P : V -> Prop) k v d :
  P v -> Forall P (Dict.values d) -> Forall P (Dict.values (Dict.set k v d)).
Proof.
  intros Hv. unfold Dict.values.
  induction d as [| [k0 v0] d IH]; simpl; intro H.
  - constructor; [exact Hv | constructor].
  - inversion H as [| ? ? H0 H1]; subst.
    destruct (k0 =? k)%nat; simpl; constructor; auto.
Qed.

Lemma Dict_values_del_Forall (P : V -> Prop) k d :
  Forall P (Dict.values d) -> Forall P (Dict.values (Dict.del k d)).
Proof.
  unfold Dict.values, Dict.del.
  induction d as [| [k0 v0] d IH]; simpl; intro H; [constructor |].
  inversion H as [| ? ? H0 H1]; subst.
  destruct (k0 =? k)%nat; simpl; [auto | constructor; auto].
Qed.

End DictMoreFacts.

(** ** The editor as a whole *)

Section EditorFacts.
Import Gui.
Local Open Scope Z_scope.

(** The state a click on a mapped tower leaves. *)
Lemma select_tower_eq (a : Application) (id : nat) (tower : Point.t) :
  Dict.get id (towers (canvas a)) = Some tower ->
  select_tower id a
  = Returned
      (PyNone,
       app_set_selected_tower (Some tower)
         (with_canvas (with_selected_tower_id (Some id) (canvas a)) a)).
Proof.
  intro H. unfold select_tower, bind, modify, towers_getitem, ret. simpl.
  rewrite H. reflexivity.
Qed.

Lemma select_tower_missing (a : Application) (id : nat) :
  Dict.get id (towers (canvas a)) = None -> select_tower id a = Raised KeyError.
Proof.
  intro H. unfold select_tower, bind, modify, towers_getitem. simpl.
  rewrite H. reflexivity.
Qed.

Lemma remove_tower_missing (a : Application) (id : nat) :
  selected_tower_id (canvas a) = Some id ->
  Dict.mem id (towers (canvas a)) = false ->
  remove_tower a = Raised KeyError.
Proof.
  intros Hs Hm. unfold remove_tower, bind, gets, towers_delitem.
  rewrite Hs, Hm. reflexivity.
Qed.

Lemma handle_arrow_eq (h : handler) (dx dy : Z) (a : Application) :
  arrow h = Some (dx, dy) ->
  handle h a
  = match selected_tower_id (canvas a) with
    | Some id =>
        match move_tower id dx dy a with
        | Returned (_, a') => Returned (PyNone, a')
        | Raised e => Raised e
        end
    | None => Returned (PyNone, a)
    end.
Proof.
  destruct h; simpl; try discriminate; intro H; injection H as <- <-;
    unfold move_selected_tower_up, move_selected_tower_down,
      move_selected_tower_left, move_selected_tower_right, bind, gets, ret;
    destruct (selected_tower_id (canvas a)); try reflexivity;
    match goal with
    | |- context [move_tower ?i ?x ?y a] =>
        destruct (move_tower i x y a) as [[? ?] | ?]; reflexivity
    end.
Qed.

Lemma handle_delete_eq (a : Application) :
  handle DeleteButton a
  = match remove_tower a with
    | Returned (_, a') => Returned (PyNone, a')
    | Raised e => Raised e
    end.
Proof.
  unfold handle, Application_remove_tower, bind, ret.
  destruct (remove_tower a) as [[? ?] | ?]; reflexivity.
Qed.

(** What a handler that returns has done: nothing, or one of five
    updates. *)
Lemma handle_returns (h : handler) (a a' : Application) (v : pyval) :
  handle h a = Returned (v, a') ->
  v = PyNone
  /\ (a' = a
      \/ a' = bind_add_tower a
      \/ (exists x y,
             off_grid x y (grid_dim (canvas a)) = false
             /\ a' = unbind_add_tower
                       (stored (Dict.set (Dict.len (towers (canvas a)))
                                  (Point.mk x y) (towers (canvas a))) a))
      \/ (exists id tower,
             Dict.get id (towers (canvas a)) = Some tower
             /\ a' = after_select id tower a)
      \/ (exists id,
             selected_tower_id (canvas a) = Some id
             /\ Dict.mem id (towers (canvas a)) = true
             /\ a' = after_delete id a)
      \/ (exists id p dx dy,
             selected_tower_id (canvas a) = Some id
             /\ Dict.get id (towers (canvas a)) = Some p
             /\ off_grid (Point.x p + dx) (Point.y p + dy) (grid_dim (canvas a))
                = false
             /\ a' = stored (Dict.set id (Point.mk (Point.x p + dx) (Point.y p + dy))
                               (towers (canvas a))) a)).
Proof.
  assert (Harrow : forall dx dy,
             arrow h = Some (dx, dy) ->
             handle h a = Returned (v, a') ->
             v = PyNone
             /\ (a' = a
                 \/ exists id p dx dy,
                     selected_tower_id (canvas a) = Some id
                     /\ Dict.get id (towers (canvas a)) = Some p
                     /\ off_grid (Point.x p + dx) (Point.y p + dy)
                          (grid_dim (canvas a)) = false
                     /\ a' = stored (Dict.set id
                                       (Point.mk (Point.x p + dx) (Point.y p + dy))
                                       (towers (canvas a))) a)).
  { intros dx dy Ha. rewrite (handle_arrow_eq h dx dy a Ha).
    destruct (selected_tower_id (canvas a)) as [id |] eqn:Hs.
    - destruct (Dict.get id (towers (canvas a))) as [p |] eqn:Hg.
      + rewrite (move_tower_eq a id dx dy p Hg).
        destruct (off_grid _ _ _) eqn:Hoff; intro H; injection H as <- <-.
        * split; [reflexivity | left; reflexivity].
        * split; [reflexivity | right]. exists id, p, dx, dy. auto.
      + rewrite (move_tower_missing a id dx dy Hg). discriminate.
    - intro H. injection H as <- <-. split; [reflexivity | left; reflexivity]. }
  destruct h as [| event | id | | e | e | e | e].
  - simpl. unfold bind, modify, ret. intro H. injection H as <- <-.
    split; [reflexivity | right; left; reflexivity].
  - simpl. unfold add_tower, bind, gets, lift, ret.
    destruct (round_div (event_x event) (step (canvas a))) as [x | e];
      [| discriminate].
    destruct (round_div (event_y event) (step (canvas a))) as [y | e];
      [| discriminate].
    rewrite tuple_in_values_false. simpl.
    destruct (off_grid _ _ _) eqn:Hoff; intro H; injection H as <- <-.
    + split; [reflexivity | left; reflexivity].
    + split; [reflexivity | right; right; left]. exists x, y. auto.
  - simpl. destruct (Dict.get id (towers (canvas a))) as [tower |] eqn:Hg.
    + rewrite (select_tower_eq a id tower Hg). intro H. injection H as <- <-.
      split; [reflexivity | right; right; right; left]. exists id, tower. auto.
    + rewrite (select_tower_missing a id Hg). discriminate.
  - rewrite handle_delete_eq.
    destruct (selected_tower_id (canvas a)) as [id |] eqn:Hs.
    + destruct (Dict.mem id (towers (canvas a))) eqn:Hm.
      * rewrite (remove_tower_eq a id Hs Hm). intro H. injection H as <- <-.
        split; [reflexivity | right; right; right; right; left]. exists id. auto.
      * rewrite (remove_tower_missing a id Hs Hm). discriminate.
    + rewrite (remove_tower_nothing_selected a Hs). intro H. injection H as <- <-.
      split; [reflexivity | left; reflexivity].
  - intro H. destruct (Harrow 0 (-1) eq_refl H) as [Hv [E | E]];
      (split; [exact Hv | tauto]).
  - intro H. destruct (Harrow 0 1 eq_refl H) as [Hv [E | E]];
      (split; [exact Hv | tauto]).
  - intro H. destruct (Harrow (-1) 0 eq_refl H) as [Hv [E | E]];
      (split; [exact Hv | tauto]).
  - intro H. destruct (Harrow 1 0 eq_refl H) as [Hv [E | E]];
      (split; [exact Hv | tauto]).
Qed.

Lemma consistent_handle (h : handler) (a a' : Application) (v : pyval) :
  consistent a -> handle h a = Returned (v, a') -> consistent a'.
Proof.
  intros [Hnd [Hsel [Hbtn Hgeo]]] H.
  destruct (handle_returns h a a' v H) as [_ Hcases].
  destruct Hcases as [-> | [-> | [Hadd | [Hselect | [Hdel | Hmove]]]]].
  - repeat split; try tauto.
  - repeat split; try tauto.
  - destruct Hadd as [x [y [_ ->]]].
    split; [apply Dict_NoDup_set; exact Hnd |].
    split; [| split; [exact Hbtn | exact Hgeo]].
    intros id Hid. specialize (Hsel id Hid).
    change (Dict.mem id (Dict.set (Dict.len (towers (canvas a))) (Point.mk x y)
                           (towers (canvas a))) = true).
    rewrite Dict_mem_set, Hsel. apply orb_true_r.
  - destruct Hselect as [id [tower [Hg ->]]].
    split; [exact Hnd |]. split; [| split; [| exact Hgeo]].
    + intros id' Hid'. injection Hid' as <-.
      apply (proj2 (Dict_mem_get id (towers (canvas a)))). rewrite Hg. discriminate.
    + simpl. split; [discriminate | reflexivity].
  - destruct Hdel as [id [_ [_ ->]]].
    split; [apply (Dict_NoDup_del id _ Hnd) |].
    split; [| split; [| exact Hgeo]].
    + intros id' Hid'. discriminate Hid'.
    + simpl. split; [discriminate | intro Hn; exfalso; apply Hn; reflexivity].
  - destruct Hmove as [id [p [dx [dy [_ [_ [_ ->]]]]]]].
    split; [apply Dict_NoDup_set; exact Hnd |].
    split; [| split; [exact Hbtn | exact Hgeo]].
    intros id' Hid'. specialize (Hsel id' Hid').
    change (Dict.mem id' (Dict.set id (Point.mk (Point.x p + dx) (Point.y p + dy))
                            (towers (canvas a))) = true).
    rewrite Dict_mem_set, Hsel. apply orb_true_r.
Qed.

Lemma in_sync_handle (h : handler) (a a' : Application) (v : pyval) :
  in_sync a -> handle h a = Returned (v, a') -> in_sync a'.
Proof.
  intros Hs H.
  destruct (handle_returns h a a' v H) as [_ Hcases].
  destruct Hcases as [-> | [-> | [Hadd | [Hselect | [Hdel | Hmove]]]]].
  - exact Hs.
  - exact Hs.
  - destruct Hadd as [x [y [_ ->]]]. unfold in_sync. repeat split.
  - destruct Hselect as [id [tower [_ ->]]]. exact Hs.
  - destruct Hdel as [id [_ [_ ->]]]. unfold in_sync. repeat split.
  - destruct Hmove as [id [p [dx [dy [_ [_ [_ ->]]]]]]]. apply in_sync_stored.
Qed.

Lemma Application_init_returns (inst : Instance) (sol : Solution.t) (a : Application) :
  Application_init inst sol = Returned a ->
  grid_side_length inst <> 0
  /\ Dict.keys (towers (canvas a)) = seq 0 (length (Solution.towers sol))
  /\ Dict.values (towers (canvas a)) = Solution.towers sol
  /\ selected_tower_id (canvas a) = None
  /\ consistent a
  /\ in_sync a.
Proof.
  unfold Application_init. cbv zeta.
  destruct (grid_side_length inst =? 0) eqn:Eg; [discriminate |].
  intro H. injection H as <-.
  assert (Hg : grid_side_length inst <> 0) by lia.
  split; [exact Hg |].
  split; [apply Dict_keys_of_enumerate |].
  split; [apply Dict_values_of_enumerate |].
  split; [reflexivity |].
  split.
  - split; [simpl; rewrite Dict_keys_of_enumerate; apply seq_NoDup |].
    split; [intros id Hid; discriminate Hid |].
    split; [simpl; split; [discriminate | intro Hn; exfalso; apply Hn; reflexivity] |].
    simpl. auto.
  - unfold in_sync, current_solution, solution_towers. simpl.
    rewrite Dict_values_of_enumerate. destruct sol as [i l]. simpl. auto.
Qed.

Lemma reachable_consistent (a : Application) : reachable a -> consistent a.
Proof.
  induction 1 as [inst sol a Hinit | h a a' v _ IH Hh].
  - apply (Application_init_returns inst sol a Hinit).
  - exact (consistent_handle h a a' v IH Hh).
Qed.

Lemma round_div_returns (a b : Z) :
  b <> 0 -> exists q, round_div a b = Returned q.
Proof.
  intro Hb. unfold round_div.
  destruct (b =? 0) eqn:E; [lia |].
  destruct (2 * Z.abs (a mod b) ?= Z.abs b); eexists; reflexivity.
Qed.

Lemma round_div_zero (a : Z) : round_div a 0 = Raised ZeroDivisionError.
Proof. reflexivity. Qed.

Lemma small_multiple (b k m : Z) :
  0 < b -> b * k = m -> - b < m < b -> k = 0.
Proof.
  intros Hb Hk Hm.
  assert (Hc : k = 0 \/ 1 <= k \/ k <= -1) by lia.
  destruct Hc as [H0 | [H1 | H1]]; [exact H0 | exfalso; nia | exfalso; nia].
Qed.

(** Rounding the quotient picks the multiple of the divisor that is
    strictly nearest to the dividend. *)
Lemma round_div_nearest (a b q : Z) :
  0 < b -> 2 * Z.abs (a - q * b) < b -> round_div a b = Returned q.
Proof.
  intros Hb Hnear. unfold round_div.
  destruct (b =? 0) eqn:E; [lia |].
  pose proof (Z.div_mod a b ltac:(lia)) as Hdm.
  pose proof (Z.mod_pos_bound a b Hb) as Hr.
  set (q0 := a / b) in *. set (r := a mod b) in *.
  rewrite (Z.abs_eq r) by lia. rewrite (Z.abs_eq b) by lia.
  destruct (2 * r ?= b) eqn:C.
  - apply Z.compare_eq in C. exfalso.
    assert (Hk : b * (q0 - q) = (a - q * b) - r) by lia.
    assert (Hm : - b < (a - q * b) - r < b) by lia.
    pose proof (small_multiple b (q0 - q) _ Hb Hk Hm) as H0.
    rewrite H0 in Hk. lia.
  - rewrite Z.compare_lt_iff in C. f_equal.
    assert (Hk : b * (q0 - q) = (a - q * b) - r) by lia.
    assert (Hm : - b < (a - q * b) - r < b) by lia.
    pose proof (small_multiple b (q0 - q) _ Hb Hk Hm) as H0. lia.
  - rewrite Z.compare_gt_iff in C. f_equal.
    assert (Hk : b * (q0 + 1 - q) = (a - q * b) - r + b) by lia.
    assert (Hm : - b < (a - q * b) - r + b < b) by lia.
    pose proof (small_multiple b (q0 + 1 - q) _ Hb Hk Hm) as H0. lia.
Qed.

Lemma Dict_mem_get_some (d : Dict.t Point.t) (id : nat) :
  Dict.mem id d = true -> exists p, Dict.get id d = Some p.
Proof.
  intro H. apply Dict_mem_get in H.
  destruct (Dict.get id d) as [p |]; [exists p; reflexivity | congruence].
Qed.

Lemma step_not_zero (a : Application) :
  consistent a -> grid_dim (canvas a) <= 720 -> step (canvas a) <> 0.
Proof.
  intros [_ [_ [_ [_ [Hg Hs]]]]] Hle. rewrite Hs.
  intro H0. apply Z.div_small_iff in H0; [| exact Hg]. lia.
Qed.

Lemma step_zero (a : Application) :
  consistent a -> 720 < grid_dim (canvas a) -> step (canvas a) = 0.
Proof.
  intros [_ [_ [_ [_ [Hg Hs]]]]] Hlt. rewrite Hs.
  apply Z.div_small. lia.
Qed.

(** The bookkeeping of the editor holds in every state: after
    [__init__] and after any sequence of handlers that return, no
    identifier is repeated, the selected identifier is mapped, the delete
    button is enabled exactly when a tower is selected, and the validity
    and cost shown are those of the towers the canvas holds. *)
Theorem editor_bookkeeping (a : Application) :
  reachable a -> consistent a /\ in_sync a.
Proof.
  intro Hr. split; [exact (reachable_consistent a Hr) |].
  induction Hr as [inst sol a Hinit | h a a' v _ IH Hh].
  - apply (Application_init_returns inst sol a Hinit).
  - exact (in_sync_handle h a a' v IH Hh).
Qed.

Lemma sample_reachable : reachable Samples.app_two_less_0.
Proof.
  apply (reachable_handle DeleteButton
           (after_select 0 (Point.mk 0 1) Samples.app_two)
           _ PyNone).
  - apply (reachable_handle (ClickTower 0) Samples.app_two _ PyNone).
    + apply (reachable_init Samples.one_city
               (Solution.mk Samples.one_city [Point.mk 0 1; Point.mk 1 1])).
      reflexivity.
    + reflexivity.
  - rewrite handle_delete_eq.
    rewrite (remove_tower_eq (after_select 0 (Point.mk 0 1) Samples.app_two)
               0%nat eq_refl eq_refl).
    reflexivity.
Defined.

Lemma editor_bookkeeping_sample :
  consistent Samples.app_two_less_0 /\ in_sync Samples.app_two_less_0.
Proof.
  exact (editor_bookkeeping Samples.app_two_less_0 sample_reachable).
Defined.

(** On a grid of side at most 720, no handler raises in a state of the
    editor: the add button, a click while adding, the delete button and
    the four arrow keys always return [None]; a click on a tower returns
    when the identifier of the clicked item is mapped. *)
Theorem handlers_never_raise (a : Application) (h : handler) :
  reachable a ->
  grid_dim (canvas a) <= 720 ->
  (forall id, h = ClickTower id -> Dict.mem id (towers (canvas a)) = true) ->
  exists a', handle h a = Returned (PyNone, a').
Proof.
  intros Hr Hle Hclick.
  pose proof (reachable_consistent a Hr) as Hc.
  pose proof (step_not_zero a Hc Hle) as Hstep.
  destruct Hc as [_ [Hsel _]].
  assert (Harrow : forall dx dy, arrow h = Some (dx, dy) ->
                                 exists a', handle h a = Returned (PyNone, a')).
  { intros dx dy Ha. rewrite (handle_arrow_eq h dx dy a Ha).
    destruct (selected_tower_id (canvas a)) as [id |] eqn:Hs;
      [| eexists; reflexivity].
    destruct (Dict_mem_get_some _ id (Hsel id eq_refl)) as [p Hg].
    rewrite (move_tower_eq a id dx dy p Hg).
    destruct (off_grid _ _ _); eexists; reflexivity. }
  destruct h as [| event | id | | e | e | e | e].
  - eexists. reflexivity.
  - destruct (round_div_returns (event_x event) _ Hstep) as [x Hx].
    destruct (round_div_returns (event_y event) _ Hstep) as [y Hy].
    simpl. rewrite (add_tower_eq a event x y Hx Hy).
    destruct (off_grid _ _ _); eexists; reflexivity.
  - destruct (Dict_mem_get_some _ id (Hclick id eq_refl)) as [tower Hg].
    simpl. rewrite (select_tower_eq a id tower Hg). eexists. reflexivity.
  - rewrite handle_delete_eq.
    destruct (selected_tower_id (canvas a)) as [id |] eqn:Hs.
    + rewrite (remove_tower_eq a id Hs (Hsel id eq_refl)). eexists. reflexivity.
    + rewrite (remove_tower_nothing_selected a Hs). eexists. reflexivity.
  - apply (Harrow 0 (-1)). reflexivity.
  - apply (Harrow 0 1). reflexivity.
  - apply (Harrow (-1) 0). reflexivity.
  - apply (Harrow 1 0). reflexivity.
Qed.

Lemma handlers_never_raise_sample :
  exists a', handle DeleteButton Samples.app_two_less_0 = Returned (PyNone, a').
Proof.
  apply (handlers_never_raise Samples.app_two_less_0 DeleteButton sample_reachable).
  - simpl. lia.
  - intros id Hid. discriminate Hid.
Defined.

(** On a grid of side above 720 the step [720 // grid_dim] is [0]: in
    every state of the editor a click while adding raises
    [ZeroDivisionError]. *)
Theorem add_tower_raises_on_large_grid (a : Application) (event : Event) :
  reachable a ->
  720 < grid_dim (canvas a) ->
  add_tower event a = Raised ZeroDivisionError.
Proof.
  intros Hr Hlt.
  pose proof (reachable_consistent a Hr) as Hc.
  pose proof (step_zero a Hc Hlt) as Hs.
  unfold add_tower, bind, gets, lift. rewrite Hs. reflexivity.
Qed.

Lemma add_tower_raises_on_large_grid_sample :
  add_tower Samples.click_0_0 Samples.app_large = Raised ZeroDivisionError.
Proof.
  apply add_tower_raises_on_large_grid.
  - apply (reachable_init Samples.large_grid
             (Solution.mk Samples.large_grid [])).
    reflexivity.
  - simpl. lia.
Defined.

(** No handler takes a tower off the grid: when every tower of the
    mapping is a cell of the grid, this is still so after any handler
    that returns. *)
Theorem towers_stay_on_grid (h : handler) (a a' : Application) (v : pyval) :
  towers_on_grid a -> handle h a = Returned (v, a') -> towers_on_grid a'.
Proof.
  intros Hg H.
  destruct (handle_returns h a a' v H) as [_ Hcases].
  destruct Hcases as [-> | [-> | [Hadd | [Hselect | [Hdel | Hmove]]]]].
  - exact Hg.
  - exact Hg.
  - destruct Hadd as [x [y [Hoff ->]]].
    apply (Dict_values_set_Forall
             (fun p => off_grid (Point.x p) (Point.y p) (grid_dim (canvas a)) = false));
      [exact Hoff | exact Hg].
  - destruct Hselect as [id [tower [_ ->]]]. exact Hg.
  - destruct Hdel as [id [_ [_ ->]]].
    apply (Dict_values_del_Forall
             (fun p => off_grid (Point.x p) (Point.y p) (grid_dim (canvas a)) = false)).
    exact Hg.
  - destruct Hmove as [id [p [dx [dy [_ [_ [Hoff ->]]]]]]].
    apply (Dict_values_set_Forall
             (fun p => off_grid (Point.x p) (Point.y p) (grid_dim (canvas a)) = false));
      [exact Hoff | exact Hg].
Qed.

Lemma towers_stay_on_grid_sample :
  towers_on_grid (stored [(0%nat, Point.mk 0 0); (1%nat, Point.mk 1 1)]
                    (after_select 0 (Point.mk 0 1) Samples.app_two)).
Proof.
  apply (towers_stay_on_grid (KeyUp Samples.click_0_0)
           (after_select 0 (Point.mk 0 1) Samples.app_two) _ PyNone).
  - repeat constructor.
  - reflexivity.
Defined.

(** An arrow key followed by the opposite one puts the selected tower
    back where it was, when the tower and the cell the first key moves
    it to are both on the grid; the mapping is then the one before the
    two keys. *)
Theorem opposite_arrows_restore
        (h h' : handler) (dx dy : Z) (a : Application) (id : nat) (p : Point.t) :
  arrow h = Some (dx, dy) ->
  arrow h' = Some (- dx, - dy) ->
  selected_tower_id (canvas a) = Some id ->
  Dict.get id (towers (canvas a)) = Some p ->
  off_grid (Point.x p) (Point.y p) (grid_dim (canvas a)) = false ->
  off_grid (Point.x p + dx) (Point.y p + dy) (grid_dim (canvas a)) = false ->
  exists a1 a2,
    handle h a = Returned (PyNone, a1)
    /\ Dict.get id (towers (canvas a1))
       = Some (Point.mk (Point.x p + dx) (Point.y p + dy))
    /\ handle h' a1 = Returned (PyNone, a2)
    /\ towers (canvas a2) = towers (canvas a)
    /\ in_sync a2.
Proof.
  intros Ha Ha' Hs Hg Hp Hq.
  set (q := Point.mk (Point.x p + dx) (Point.y p + dy)).
  set (a1 := stored (Dict.set id q (towers (canvas a))) a).
  assert (Hg1 : Dict.get id (towers (canvas a1)) = Some q)
    by apply Dict_get_set_same.
  exists a1. eexists.
  split.
  { rewrite (handle_arrow_eq h dx dy a Ha), Hs.
    rewrite (move_tower_eq a id dx dy p Hg), Hq. reflexivity. }
  split; [exact Hg1 |].
  split.
  { rewrite (handle_arrow_eq h' (- dx) (- dy) a1 Ha').
    change (selected_tower_id (canvas a1)) with (selected_tower_id (canvas a)).
    rewrite Hs. rewrite (move_tower_eq a1 id (- dx) (- dy) q Hg1).
    change (grid_dim (canvas a1)) with (grid_dim (canvas a)).
    simpl Point.x. simpl Point.y.
    replace (Point.x p + dx + - dx) with (Point.x p) by lia.
    replace (Point.y p + dy + - dy) with (Point.y p) by lia.
    rewrite Hp. reflexivity. }
  split; [| apply in_sync_stored].
  rewrite towers_stored.
  change (towers (canvas a1)) with (Dict.set id q (towers (canvas a))).
  rewrite Dict_set_set. apply Dict_set_get.
  rewrite Hg. destruct p; reflexivity.
Qed.

Lemma opposite_arrows_restore_sample :
  exists a1 a2,
    handle (KeyUp Samples.click_0_0)
      (after_select 0 (Point.mk 0 1) Samples.app_two) = Returned (PyNone, a1)
    /\ Dict.get 0%nat (towers (canvas a1)) = Some (Point.mk (0 + 0) (1 + -1))
    /\ handle (KeyDown Samples.click_0_0) a1 = Returned (PyNone, a2)
    /\ towers (canvas a2)
       = towers (canvas (after_select 0 (Point.mk 0 1) Samples.app_two))
    /\ in_sync a2.
Proof.
  apply (opposite_arrows_restore
           (KeyUp Samples.click_0_0) (KeyDown Samples.click_0_0) 0 (-1)
           (after_select 0 (Point.mk 0 1) Samples.app_two) 0%nat (Point.mk 0 1));
    reflexivity.
Defined.

(** The delete button removes exactly the selected tower, clears the
    selection and disables itself; pressed again it changes nothing. *)
Theorem delete_removes_selected_once (a : Application) (id : nat) :
  consistent a ->
  selected_tower_id (canvas a) = Some id ->
  exists a1,
    handle DeleteButton a = Returned (PyNone, a1)
    /\ S (Dict.len (towers (canvas a1))) = Dict.len (towers (canvas a))
    /\ Dict.get id (towers (canvas a1)) = None
    /\ (forall id', id' <> id ->
          Dict.get id' (towers (canvas a1)) = Dict.get id' (towers (canvas a)))
    /\ selected_tower_id (canvas a1) = None
    /\ btn_delete_enabled (info_frame a1) = false
    /\ handle DeleteButton a1 = Returned (PyNone, a1).
Proof.
  intros [Hnd [Hsel _]] Hs.
  pose proof (Hsel id Hs) as Hm.
  exists (after_delete id a).
  split.
  { rewrite handle_delete_eq, (remove_tower_eq a id Hs Hm). reflexivity. }
  change (towers (canvas (after_delete id a)))
    with (Dict.del id (towers (canvas a))).
  split; [apply Dict_len_del; assumption |].
  split; [apply Dict_get_del_same |].
  split; [intros id' Hne; apply Dict_get_del_other; exact Hne |].
  split; [reflexivity |]. split; [reflexivity |].
  rewrite handle_delete_eq.
  rewrite (remove_tower_nothing_selected (after_delete id a) eq_refl).
  reflexivity.
Qed.

Lemma delete_removes_selected_once_sample :
  exists a1,
    handle DeleteButton (after_select 0 (Point.mk 0 1) Samples.app_two)
    = Returned (PyNone, a1)
    /\ towers (canvas a1) = [(1%nat, Point.mk 1 1)]
    /\ handle DeleteButton a1 = Returned (PyNone, a1).
Proof.
  destruct (delete_removes_selected_once
              (after_select 0 (Point.mk 0 1) Samples.app_two) 0%nat)
    as [a1 [H1 [_ [_ [_ [_ [_ H2]]]]]]].
  - apply (consistent_handle (ClickTower 0) Samples.app_two _ PyNone);
      [| reflexivity].
    apply (Application_init_returns Samples.one_city
             (Solution.mk Samples.one_city [Point.mk 0 1; Point.mk 1 1])).
    reflexivity.
  - reflexivity.
  - exists a1. split; [exact H1 |]. split; [| exact H2].
    rewrite handle_delete_eq in H1.
    rewrite (remove_tower_eq (after_select 0 (Point.mk 0 1) Samples.app_two)
               0%nat eq_refl eq_refl) in H1.
    injection H1 as <-. reflexivity.
Defined.

(** [move_tower] and a click on a tower raise [KeyError] exactly when
    the identifier is not mapped. *)
Theorem KeyError_iff_not_mapped (a : Application) (id : nat) (dx dy : Z) :
  (move_tower id dx dy a = Raised KeyError
   <-> Dict.mem id (towers (canvas a)) = false)
  /\ (select_tower id a = Raised KeyError
      <-> Dict.mem id (towers (canvas a)) = false).
Proof.
  destruct (Dict.get id (towers (canvas a))) as [p |] eqn:Hg.
  - assert (Hm : Dict.mem id (towers (canvas a)) = true).
    { apply Dict_mem_get. rewrite Hg. discriminate. }
    rewrite Hm, (move_tower_eq a id dx dy p Hg), (select_tower_eq a id p Hg).
    split; (split; [| discriminate]).
    + destruct (off_grid _ _ _); discriminate.
    + discriminate.
  - assert (Hm : Dict.mem id (towers (canvas a)) = false).
    { destruct (Dict.mem id (towers (canvas a))) eqn:E; [| reflexivity].
      apply Dict_mem_get in E. congruence. }
    rewrite (move_tower_missing a id dx dy Hg), (select_tower_missing a id Hg).
    split; split; auto.
Qed.

(** A click while adding is snapped to the nearest grid point: a click
    strictly closer than half a step, in both directions, to the pixel
    [(x * step, y * step)] where the cell [(x, y)] is drawn gives the
    cell [(x, y)], and the tower is stored there when the cell is free
    and on the grid. *)
Theorem add_tower_snaps_to_nearest_cell
        (a : Application) (event : Event) (x y : Z) :
  0 < step (canvas a) ->
  2 * Z.abs (event_x event - x * step (canvas a)) < step (canvas a) ->
  2 * Z.abs (event_y event - y * step (canvas a)) < step (canvas a) ->
  existsb (Point.eqb (Point.mk x y)) (Dict.values (towers (canvas a))) = false ->
  off_grid x y (grid_dim (canvas a)) = false ->
  exists a',
    add_tower event a = Returned (PyNone, a')
    /\ Dict.get (Dict.len (towers (canvas a))) (towers (canvas a'))
       = Some (Point.mk x y)
    /\ In (Point.mk x y) (Dict.values (towers (canvas a'))).
Proof.
  intros Hs Hx Hy Hocc Hoff.
  pose proof (round_div_nearest _ _ x Hs Hx) as Rx.
  pose proof (round_div_nearest _ _ y Hs Hy) as Ry.
  rewrite (add_tower_eq a event x y Rx Ry), Hoff.
  eexists. split; [reflexivity |].
  change (towers (canvas
            (unbind_add_tower
               (stored (Dict.set (Dict.len (towers (canvas a))) (Point.mk x y)
                          (towers (canvas a))) a))))
    with (Dict.set (Dict.len (towers (canvas a))) (Point.mk x y)
            (towers (canvas a))).
  split; [apply Dict_get_set_same |].
  assert (Hin : forall (d : Dict.t Point.t) k v, In v (Dict.values (Dict.set k v d))).
  { intros d k v. unfold Dict.values.
    induction d as [| [k0 v0] d IH]; simpl.
    - left. reflexivity.
    - destruct (k0 =? k)%nat; simpl; [left; reflexivity | right; exact IH]. }
  apply Hin.
Qed.

Lemma add_tower_snaps_to_nearest_cell_sample :
  exists a',
    add_tower {| event_x := 300; event_y := 100 |} Samples.app_two
    = Returned (PyNone, a')
    /\ Dict.get 2%nat (towers (canvas a')) = Some (Point.mk 1 0)
    /\ In (Point.mk 1 0) (Dict.values (towers (canvas a'))).
Proof.
  apply (add_tower_snaps_to_nearest_cell Samples.app_two
           {| event_x := 300; event_y := 100 |} 1 0);
    simpl; try reflexivity; lia.
Defined.

(** Opening the editor raises [ZeroDivisionError] exactly on a grid of
    side [0].  Otherwise the towers of the solution are stored in order
    under the identifiers [0 .. n-1], the tower of rank [i] under [i];
    nothing is selected, and the validity and cost shown are those of
    the solution. *)
Theorem editor_opens_on_solution (inst : Instance) (sol : Solution.t) :
  (Application_init inst sol = Raised ZeroDivisionError
   <-> grid_side_length inst = 0)
  /\ (forall a,
         Application_init inst sol = Returned a ->
         Dict.keys (towers (canvas a)) = seq 0 (length (Solution.towers sol))
         /\ Dict.values (towers (canvas a)) = Solution.towers sol
         /\ (forall i, Dict.get i (towers (canvas a))
                       = nth_error (Solution.towers sol) i)
         /\ step (canvas a) = 720 / grid_side_length inst
         /\ selected_tower_id (canvas a) = None
         /\ lbl_valid (info_frame a) = Some (Solution.valid sol)
         /\ lbl_cost (info_frame a) = Some (Solution.penalty sol)
         /\ in_sync a).
Proof.
  split.
  - unfold Application_init. cbv zeta.
    destruct (grid_side_length inst =? 0) eqn:E; split; intro H;
      try reflexivity; try discriminate; lia.
  - intros a Ha.
    destruct (Application_init_returns inst sol a Ha)
      as [Hg [Hk [Hv [Hs [_ Hsync]]]]].
    unfold Application_init in Ha. cbv zeta in Ha.
    destruct (grid_side_length inst =? 0); [discriminate |].
    injection Ha as <-.
    split; [exact Hk |]. split; [exact Hv |].
    split; [intro i; apply Dict_get_of_enumerate |].
    split; [reflexivity |]. split; [reflexivity |].
    split; [reflexivity |]. split; [reflexivity |].
    exact Hsync.
Qed.

Lemma editor_opens_on_solution_sample :
  Dict.values (towers (canvas Samples.app_two)) = [Point.mk 0 1; Point.mk 1 1]
  /\ step (canvas Samples.app_two) = 360.
Proof.
  destruct (proj2 (editor_opens_on_solution Samples.one_city
                     (Solution.mk Samples.one_city [Point.mk 0 1; Point.mk 1 1]))
              Samples.app_two eq_refl)
    as [_ [Hv [_ [Hs _]]]].
  split; [exact Hv | exact Hs].
Defined.

End EditorFacts.

(** ** The model and the decoded solution *)

Section ModelFacts.
Import Expansion Minlp.

Lemma In_interval (lo hi k : Z) : In k (interval lo hi) <-> (lo <= k <= hi)%Z.
Proof.
  unfold interval. rewrite in_map_iff. split.
  - intros [n [<- Hn]]. apply in_seq in Hn. lia.
  - intro H. exists (Z.to_nat (k - lo)). split; [lia |]. apply in_seq. lia.
Qed.

(** The geometry returns cells of the grid, within the radius. *)
Lemma in_points_within_radius (c p : Point.t) (r D : Z) :
  In p (Point.points_within_radius c r D) ->
  (0 <= Point.x p < D)%Z /\ (0 <= Point.y p < D)%Z
  /\ (Point.distance_sq c p <= r * r)%Z.
Proof.
  unfold Point.points_within_radius. intro H.
  apply in_flat_map in H. destruct H as [px [Hpx H]].
  apply in_flat_map in H. destruct H as [py [Hpy H]].
  cbv zeta in H.
  destruct (Point.distance_sq c (Point.mk px py) <=? r * r)%Z eqn:E;
    [| contradiction].
  destruct H as [<- | []].
  apply In_interval in Hpx, Hpy. simpl. repeat split; lia.
Qed.

Lemma NoDup_range (n : Z) : NoDup (range n).
Proof.
  unfold range. apply NoDup_map_NoDup_ForallPairs.
  - intros i j _ _ H. lia.
  - apply seq_NoDup.
Qed.

Lemma decode_rows_NoDup (c : Z -> Z -> bool) (xs ys : list Z) :
  NoDup xs -> NoDup ys ->
  NoDup (flat_map
           (fun x => flat_map (fun y => if c x y then [Point.mk x y] else []) ys)
           xs).
Proof.
  intros Hxs Hys.
  assert (Hrow : forall x ys', NoDup ys' ->
             NoDup (flat_map (fun y => if c x y then [Point.mk x y] else []) ys')).
  { intros x ys' H. induction H as [| y l Hy Hl IH]; simpl; [constructor |].
    destruct (c x y); simpl; [| exact IH].
    constructor; [| exact IH].
    intro Hin. apply in_flat_map in Hin. destruct Hin as [y' [Hy' Hin]].
    destruct (c x y'); [| contradiction].
    destruct Hin as [E | []]. injection E as ->. contradiction. }
  assert (Hcol : forall x p ys',
             In p (flat_map (fun y => if c x y then [Point.mk x y] else []) ys') ->
             Point.x p = x).
  { intros x p ys' Hin. apply in_flat_map in Hin. destruct Hin as [y [_ Hin]].
    destruct (c x y); [| contradiction]. destruct Hin as [<- | []]. reflexivity. }
  induction Hxs as [| x l Hx Hl IH]; simpl; [constructor |].
  apply NoDup_app; [apply Hrow; exact Hys | exact IH |].
  intros p Hp Hp'. apply Hcol in Hp.
  apply in_flat_map in Hp'. destruct Hp' as [x' [Hx' Hin]].
  apply Hcol in Hin. subst. contradiction.
Qed.

Lemma decode_rows_length (c : Z -> Z -> bool) (xs ys : list Z) :
  length (flat_map
            (fun x => flat_map (fun y => if c x y then [Point.mk x y] else []) ys)
            xs)
  <= length xs * length ys.
Proof.
  assert (Hrow : forall x ys',
             length (flat_map (fun y => if c x y then [Point.mk x y] else []) ys')
             <= length ys').
  { intros x ys'. induction ys' as [| y l IH]; simpl; [lia |].
    rewrite length_app. destruct (c x y); simpl; lia. }
  induction xs as [| x l IH]; simpl; [lia |].
  rewrite length_app. specialize (Hrow x ys). lia.
Qed.

(** Before the solver is called, [solve_minlp] raises [ValueError] on a
    grid whose side is not positive and [KeyError] when a city is not a
    cell of the grid.  Otherwise, whatever values the solver leaves when
    it returns, the solution [solve_minlp] returns keeps the instance,
    lists no cell twice, lists only cells of the grid, and so holds at
    most [dim * dim] towers. *)
Theorem solve_minlp_towers (solver : Solver) (inst : Instance) :
  ((grid_side_length inst <= 0)%Z -> solve_minlp solver inst = Raised ValueError)
  /\ (forall city,
         (0 < grid_side_length inst)%Z ->
         In city (cities inst) ->
         ~ ((0 <= Point.x city < grid_side_length inst)%Z
            /\ (0 <= Point.y city < grid_side_length inst)%Z) ->
         solve_minlp solver inst = Raised KeyError)
  /\ (forall r v,
         (0 < grid_side_length inst)%Z ->
         (forall city, In city (cities inst) ->
                       (0 <= Point.x city < grid_side_length inst)%Z
                       /\ (0 <= Point.y city < grid_side_length inst)%Z) ->
         solver 100%Z (build_model inst) = Returned (r, v) ->
         exists s,
           solve_minlp solver inst = Returned s
           /\ Solution.instance s = inst
           /\ NoDup (Solution.towers s)
           /\ (forall p, In p (Solution.towers s) ->
                         (0 <= Point.x p < grid_side_length inst)%Z
                         /\ (0 <= Point.y p < grid_side_length inst)%Z)
           /\ length (Solution.towers s)
              <= Z.to_nat (grid_side_length inst)
                 * Z.to_nat (grid_side_length inst)).
Proof.
  split; [| split].
  - intro Hd. unfold solve_minlp. cbv zeta.
    rewrite (construct_model_ValueError inst Hd). reflexivity.
  - intros city Hd Hin Hoff. unfold solve_minlp. cbv zeta.
    rewrite (construct_model_KeyError inst city Hd Hin Hoff). reflexivity.
  - intros r v Hd Hc H. unfold solve_minlp. cbv zeta.
    rewrite (construct_model_returns inst Hd Hc), H.
    eexists. split; [reflexivity |]. simpl.
    split; [reflexivity |].
    split; [apply decode_rows_NoDup; apply NoDup_range |].
    split.
    { intros p Hp. apply in_decode in Hp. destruct Hp as [Hx [Hy _]].
      apply In_range in Hx, Hy. split; assumption. }
    pose proof (decode_rows_length
                  (fun x y => value_is_one (v x y))
                  (range (grid_side_length inst)) (range (grid_side_length inst)))
      as Hl.
    unfold range in Hl at 3 4. rewrite !length_map, !length_seq in Hl.
    exact Hl.
Qed.

Lemma solve_minlp_towers_sample :
  exists s,
    solve_minlp Samples.out_of_budget_solver Samples.two_cities = Returned s
    /\ NoDup (Solution.towers s)
    /\ length (Solution.towers s) <= 4.
Proof.
  destruct (proj2 (proj2 (solve_minlp_towers Samples.out_of_budget_solver
                            Samples.two_cities))
              {| termination_condition := maxIterations |}
              (fun x y => if ((x =? 0) && (y =? 0))%Z
                          then Some 1%float else Some 0%float)
              eq_refl two_cities_on_grid eq_refl)
    as [s [Hs [_ [Hnd [_ Hlen]]]]].
  exists s. split; [exact Hs |]. split; [exact Hnd | exact Hlen].
Defined.

Local Open Scope R_scope.

Lemma Rsum_nonneg {A : Type} (f : A -> R) (l : list A) :
  (forall a, In a l -> 0 <= f a) -> 0 <= Rsum (map f l).
Proof.
  induction l as [| a l IH]; simpl; intro H; [lra |].
  assert (0 <= f a) by (apply H; left; reflexivity).
  assert (0 <= Rsum (map f l)) by (apply IH; intros b Hb; apply H; right; exact Hb).
  lra.
Qed.

Lemma Rsum_le {A : Type} (f g : A -> R) (l : list A) :
  (forall a, In a l -> f a <= g a) -> Rsum (map f l) <= Rsum (map g l).
Proof.
  induction l as [| a l IH]; simpl; intro H; [lra |].
  assert (f a <= g a) by (apply H; left; reflexivity).
  assert (Rsum (map f l) <= Rsum (map g l))
    by (apply IH; intros b Hb; apply H; right; exact Hb).
  lra.
Qed.

Lemma Rsum_scal {A : Type} (c : R) (f : A -> R) (l : list A) :
  Rsum (map (fun a => c * f a) l) = c * Rsum (map f l).
Proof.
  induction l as [| a l IH]; simpl; [lra | rewrite IH; lra].
Qed.

Lemma Rsum_positive_term {A : Type} (f : A -> R) (l : list A) :
  0 < Rsum (map f l) -> exists a, In a l /\ f a <> 0.
Proof.
  induction l as [| a l IH]; simpl; intro H; [lra |].
  destruct (Req_dec (f a) 0) as [E | N].
  - rewrite E in H. destruct IH as [b [Hb Hn]]; [lra |].
    exists b. split; [right; exact Hb | exact Hn].
  - exists a. split; [left; reflexivity | exact N].
Qed.

Lemma cover_lhs_sum (inst : Instance) (city : Point.t) (t : valuation) :
  cover_lhs inst city t
  = Rsum (map (fun p => t (Point.x p) (Point.y p))
            (Point.points_within_radius city (coverage_radius inst)
               (grid_side_length inst)))
    + t (Point.x city) (Point.y city).
Proof. unfold cover_lhs. rewrite fold_left_Rplus. lra. Qed.

(** The coverage constraint of a city of the grid counts the city's own
    cell twice: once among the points the geometry returns, once in the
    term added to the sum. *)
Theorem cover_constraint_counts_city_twice
        (inst : Instance) (city : Point.t) (t : valuation) :
  (0 <= coverage_radius inst)%Z ->
  (0 <= Point.x city < grid_side_length inst)%Z ->
  (0 <= Point.y city < grid_side_length inst)%Z ->
  cover_lhs inst city t
  = Rsum (map (fun p => t (Point.x p) (Point.y p))
            (filter (fun p => negb (Point.eqb p city))
               (Point.points_within_radius city (coverage_radius inst)
                  (grid_side_length inst))))
    + 2 * t (Point.x city) (Point.y city).
Proof.
  intros Hr Hx Hy. rewrite cover_lhs_sum.
  rewrite (Rsum_points_within_radius_center
             (fun p => t (Point.x p) (Point.y p)) city _ _ Hr Hx Hy).
  lra.
Qed.

Lemma cover_constraint_counts_city_twice_sample :
  cover_lhs Samples.two_cities (Point.mk 1 1) Samples.all_ones
  = Rsum (map (fun p => Samples.all_ones (Point.x p) (Point.y p))
            (filter (fun p => negb (Point.eqb p (Point.mk 1 1)))
               (Point.points_within_radius (Point.mk 1 1)
                  (coverage_radius Samples.two_cities)
                  (grid_side_length Samples.two_cities))))
    + 2 * Samples.all_ones 1%Z 1%Z.
Proof.
  apply (cover_constraint_counts_city_twice Samples.two_cities (Point.mk 1 1));
    simpl; lia.
Defined.

Lemma covered_by_decoded
      (inst : Instance) (t : valuation) (v : values) (city : Point.t) :
  (forall x y, t x y = 0 \/ t x y = 1) ->
  (forall x y, t x y = 1 -> value_is_one (v x y) = true) ->
  cover_lhs inst city t >= 1 ->
  (0 <= Point.x city < grid_side_length inst)%Z ->
  (0 <= Point.y city < grid_side_length inst)%Z ->
  exists p,
    In p (decode (grid_side_length inst) v)
    /\ (p = city
        \/ In p (Point.points_within_radius city (coverage_radius inst)
                   (grid_side_length inst))).
Proof.
  intros Hbin Hval Hc Hx Hy.
  rewrite cover_lhs_sum in Hc.
  destruct (Hbin (Point.x city) (Point.y city)) as [H0 | H1].
  - rewrite H0 in Hc.
    destruct (Rsum_positive_term
                (fun p => t (Point.x p) (Point.y p))
                (Point.points_within_radius city (coverage_radius inst)
                   (grid_side_length inst))) as [p [Hp Hn]]; [lra |].
    exists p. split; [| right; exact Hp].
    apply in_decode.
    destruct (in_points_within_radius _ _ _ _ Hp) as [Hpx [Hpy _]].
    split; [apply In_range; exact Hpx |].
    split; [apply In_range; exact Hpy |].
    apply Hval. destruct (Hbin (Point.x p) (Point.y p)); [contradiction | assumption].
  - exists city. split; [| left; reflexivity].
    apply in_decode.
    split; [apply In_range; exact Hx |].
    split; [apply In_range; exact Hy |].
    apply Hval. exact H1.
Qed.

(** When a 0/1 valuation satisfies the coverage constraints of the
    model and the solver's values are [1] where the valuation is, every
    city of the grid has a decoded tower on its own cell or among the
    points within the coverage radius. *)
Theorem cover_constraints_give_towers
        (inst : Instance) (t : valuation) (v : values) (city : Point.t) :
  (forall x y, t x y = 0 \/ t x y = 1) ->
  (forall x y, t x y = 1 -> value_is_one (v x y) = true) ->
  (forall c, In c (constraints (build_model inst)) -> c t) ->
  In city (cities inst) ->
  (0 <= Point.x city < grid_side_length inst)%Z ->
  (0 <= Point.y city < grid_side_length inst)%Z ->
  exists p,
    In p (decode (grid_side_length inst) v)
    /\ (p = city
        \/ In p (Point.points_within_radius city (coverage_radius inst)
                   (grid_side_length inst))).
Proof.
  intros Hbin Hval Hsat Hcity Hx Hy.
  apply (covered_by_decoded inst t v city Hbin Hval); [| exact Hx | exact Hy].
  apply (Hsat (fun t => cover_lhs inst city t >= 1)).
  simpl. unfold cover_cities. apply in_map_iff. exists city. auto.
Qed.

Lemma all_ones_satisfies_two_cities :
  forall c, In c (constraints (build_model Samples.two_cities)) ->
            c Samples.all_ones.
Proof.
  intros c Hc. simpl in Hc. unfold cover_cities in Hc. simpl in Hc.
  assert (Hge : forall city, cover_lhs Samples.two_cities city Samples.all_ones >= 1).
  { intro city. rewrite cover_lhs_sum.
    pose proof (Rsum_nonneg
                  (fun p => Samples.all_ones (Point.x p) (Point.y p))
                  (Point.points_within_radius city
                     (coverage_radius Samples.two_cities)
                     (grid_side_length Samples.two_cities))) as Hn.
    unfold Samples.all_ones in *.
    assert (0 <= Rsum (map (fun _ : Point.t => 1)
                         (Point.points_within_radius city
                            (coverage_radius Samples.two_cities)
                            (grid_side_length Samples.two_cities))))
      by (apply Hn; intros; lra).
    lra. }
  destruct Hc as [<- | [<- | []]]; apply Hge.
Defined.

Lemma cover_constraints_give_towers_sample :
  exists p,
    In p (decode 2 Samples.all_one_values)
    /\ (p = Point.mk 1 1
        \/ In p (Point.points_within_radius (Point.mk 1 1) 0 2)).
Proof.
  apply (cover_constraints_give_towers Samples.two_cities Samples.all_ones
           Samples.all_one_values (Point.mk 1 1)).
  - intros x y. right. reflexivity.
  - intros x y _. reflexivity.
  - exact all_ones_satisfies_two_cities.
  - simpl. right. left. reflexivity.
  - simpl. lia.
  - simpl. lia.
Defined.

Lemma center_in_points_within_radius (c : Point.t) (r D : Z) :
  (0 <= r)%Z -> (0 <= Point.x c < D)%Z -> (0 <= Point.y c < D)%Z ->
  In c (Point.points_within_radius c r D).
Proof.
  intros Hr Hx Hy. unfold Point.points_within_radius.
  apply in_flat_map. exists (Point.x c). split; [apply In_interval; lia |].
  apply in_flat_map. exists (Point.y c). split; [apply In_interval; lia |].
  cbv zeta.
  assert (E : (Point.distance_sq c (Point.mk (Point.x c) (Point.y c)) <=? r * r)%Z
              = true).
  { unfold Point.distance_sq. simpl. rewrite !Z.sub_diag. simpl.
    apply Z.leb_le. nia. }
  rewrite E. left. destruct c; reflexivity.
Qed.

(** When the solver's values are a 0/1 solution of the coverage
    constraints, what [solve_minlp] returns is a valid placement (for a
    grid of positive side, cities on the grid and a coverage radius that
    is not negative; validity as [Solution.valid] computes it). *)
Theorem solve_minlp_valid
        (solver : Solver) (inst : Instance) (r : SolverResults) (v : values)
        (t : valuation) :
  (0 < grid_side_length inst)%Z ->
  solver 100%Z (build_model inst) = Returned (r, v) ->
  (forall x y, t x y = 0 \/ t x y = 1) ->
  (forall x y, t x y = 1 -> value_is_one (v x y) = true) ->
  (forall c, In c (constraints (build_model inst)) -> c t) ->
  (0 <= coverage_radius inst)%Z ->
  (forall city, In city (cities inst) ->
                (0 <= Point.x city < grid_side_length inst)%Z
                /\ (0 <= Point.y city < grid_side_length inst)%Z) ->
  exists s, solve_minlp solver inst = Returned s /\ Solution.valid s = true.
Proof.
  intros Hd Hsolve Hbin Hval Hsat Hr Hgrid.
  unfold solve_minlp. cbv zeta.
  rewrite (construct_model_returns inst Hd Hgrid), Hsolve.
  eexists. split; [reflexivity |].
  unfold Solution.valid. simpl.
  apply forallb_forall. intros city Hcity.
  destruct (Hgrid city Hcity) as [Hx Hy].
  assert (Hc : cover_lhs inst city t >= 1).
  { apply (Hsat (fun t => cover_lhs inst city t >= 1)).
    simpl. unfold cover_cities. apply in_map_iff. exists city. auto. }
  destruct (covered_by_decoded inst t v city Hbin Hval Hc Hx Hy)
    as [p [Hp Hnear]].
  apply existsb_exists. exists p. split; [exact Hp |].
  apply existsb_exists. exists p. split.
  - destruct Hnear as [-> | Hin]; [| exact Hin].
    apply center_in_points_within_radius; assumption.
  - apply Point_eqb_eq. reflexivity.
Qed.

Lemma solve_minlp_valid_sample :
  exists s,
    solve_minlp Samples.optimal_solver Samples.two_cities = Returned s
    /\ Solution.valid s = true.
Proof.
  apply (solve_minlp_valid Samples.optimal_solver Samples.two_cities
           {| termination_condition := optimal |} Samples.all_one_values
           Samples.all_ones).
  - reflexivity.
  - reflexivity.
  - intros x y. right. reflexivity.
  - intros x y _. reflexivity.
  - exact all_ones_satisfies_two_cities.
  - simpl. lia.
  - intros city Hc. simpl in Hc.
    destruct Hc as [<- | [<- | []]]; simpl; lia.
Defined.

Lemma exp_expansion_1_from_1 (w : R) :
  1 <= w -> 0 < exp_expansion_1 1 <= exp_expansion_1 w.
Proof.
  intro Hw. pose proof f0_pos as H0.
  rewrite !exp_expansion_1_eq. unfold f1, w_0. split; nra.
Qed.

(** For a 0/1 valuation and a penalty radius that is not negative, the
    objective is at least [170 * exp_expansion_1 1] for each cell of the
    grid that holds a tower; in particular it is not negative, although
    [exp_expansion_1] is negative at [0]: a tower always counts
    itself. *)
Theorem objective_rule_lower_bound (inst : Instance) (t : valuation) :
  (forall x y, t x y = 0 \/ t x y = 1) ->
  (0 <= penalty_radius inst)%Z ->
  170 * exp_expansion_1 1
  * Rsum (map (fun x => Rsum (map (fun y => t x y)
                                (range (grid_side_length inst))))
            (range (grid_side_length inst)))
  <= objective_rule inst t
  /\ 0 <= objective_rule inst t.
Proof.
  intros Hbin Hr.
  pose proof (exp_expansion_1_from_1 1 ltac:(lra)) as [Hpos _].
  assert (Hlow :
            170 * exp_expansion_1 1
            * Rsum (map (fun x => Rsum (map (fun y => t x y)
                                          (range (grid_side_length inst))))
                      (range (grid_side_length inst)))
            <= objective_rule inst t).
  { rewrite objective_rule_sum, <- Rsum_scal.
    apply Rsum_le. intros x Hx. rewrite <- Rsum_scal.
    apply Rsum_le. intros y Hy.
    destruct (Hbin x y) as [E | E]; rewrite E; [lra |].
    assert (Hw : 1 <= w_xy inst t x y).
    { apply In_range in Hx, Hy.
      rewrite w_xy_sum.
      rewrite (Rsum_points_within_radius_center
                 (fun p => t (Point.x p) (Point.y p)) (Point.mk x y) _ _ Hr Hx Hy).
      simpl. rewrite E.
      pose proof (Rsum_nonneg
                    (fun p => t (Point.x p) (Point.y p))
                    (filter (fun p => negb (Point.eqb p (Point.mk x y)))
                       (Point.points_within_radius (Point.mk x y)
                          (penalty_radius inst) (grid_side_length inst)))) as Hn.
      assert (0 <= Rsum (map (fun p => t (Point.x p) (Point.y p))
                           (filter (fun p => negb (Point.eqb p (Point.mk x y)))
                              (Point.points_within_radius (Point.mk x y)
                                 (penalty_radius inst) (grid_side_length inst))))).
      { apply Hn. intros p _. destruct (Hbin (Point.x p) (Point.y p)) as [F | F];
          rewrite F; lra. }
      lra. }
    pose proof (exp_expansion_1_from_1 _ Hw) as [_ Hle]. nra. }
  split; [exact Hlow |].
  assert (0 <= Rsum (map (fun x => Rsum (map (fun y => t x y)
                                           (range (grid_side_length inst))))
                       (range (grid_side_length inst)))).
  { apply Rsum_nonneg. intros x _. apply Rsum_nonneg. intros y _.
    destruct (Hbin x y) as [E | E]; rewrite E; lra. }
  nra.
Qed.

Lemma objective_rule_lower_bound_sample :
  0 <= objective_rule Samples.two_cities Samples.all_ones.
Proof.
  apply (objective_rule_lower_bound Samples.two_cities Samples.all_ones).
  - intros x y. right. reflexivity.
  - simpl. lia.
Defined.

End ModelFacts.

(** ** The command line *)

Section MainFacts.
Import Ascii String Main.
Local Open Scope string_scope.

Lemma split_not_nil (s : string) : split s <> [].
Proof.
  destruct s as [| c s]; simpl; [discriminate |].
  destruct (Ascii.eqb c slash); [discriminate |].
  destruct (split s); discriminate.
Qed.

Lemma split_no_slash (s : string) : no_slash s = true -> split s = [s].
Proof.
  induction s as [| c s IH]; simpl; intro H; [reflexivity |].
  apply andb_true_iff in H. destruct H as [Hc Hs].
  apply negb_true_iff in Hc. rewrite Hc, (IH Hs). reflexivity.
Qed.

Lemma split_at_slash (s rest : string) :
  no_slash s = true ->
  split (s ++ String slash rest) = s :: split rest.
Proof.
  induction s as [| c s IH]; simpl; intro H.
  - reflexivity.
  - apply andb_true_iff in H. destruct H as [Hc Hs].
    apply negb_true_iff in Hc. rewrite Hc, (IH Hs). reflexivity.
Qed.

Lemma split_one_piece (s : string) :
  List.length (split s) = 1%nat <-> no_slash s = true.
Proof.
  induction s as [| c s IH]; simpl.
  - split; reflexivity.
  - destruct (Ascii.eqb c slash); simpl.
    + split; [| discriminate].
      intro H. pose proof (split_not_nil s) as Hn.
      destruct (split s); [congruence | discriminate].
    + pose proof (split_not_nil s) as Hn.
      destruct (split s) as [| piece pieces] eqn:E; [congruence |].
      simpl in *. exact IH.
Qed.

Lemma zfill_unsigned (width : nat) (s : string) :
  starts_with_sign s = false ->
  zfill width s = repeat_char zero (width - String.length s) ++ s.
Proof.
  intro H. unfold zfill.
  destruct (width <=? String.length s)%nat eqn:E.
  - apply Nat.leb_le in E.
    replace (width - String.length s)%nat with 0%nat by lia. reflexivity.
  - destruct s as [| c s]; simpl.
    + assert (Hnil : forall t, t ++ "" = t).
      { induction t as [| a t IHt]; simpl; [reflexivity | rewrite IHt; reflexivity]. }
      rewrite Hnil. reflexivity.
    + simpl in H. rewrite H. reflexivity.
Qed.

(** [start] raises [IndexError] exactly when its argument has no slash. *)
Theorem start_IndexError_iff_no_slash (input : string) :
  start input = IndexError <-> no_slash input = true.
Proof.
  rewrite <- split_one_piece. unfold start. cbv zeta.
  pose proof (split_not_nil input) as Hn.
  destruct (split input) as [| size [| id rest]]; simpl.
  - congruence.
  - split; reflexivity.
  - split; discriminate.
Qed.

(** For an argument [<size>/<id>], the three paths are built from the
    two components, the identifier padded with zeros on the left to
    three characters when it is shorter and has no sign; whatever
    follows a second slash is ignored. *)
Theorem start_paths_of_size_and_id (size id : string) :
  no_slash size = true ->
  no_slash id = true ->
  starts_with_sign id = false ->
  let name := repeat_char zero (3 - String.length id) ++ id in
  start (size ++ "/" ++ id)
  = Paths ("inputs/" ++ size ++ "/" ++ name ++ ".in")
          ("outputs/" ++ size ++ "/" ++ name ++ ".out")
          ("edited/" ++ size ++ "/" ++ name ++ ".out")
  /\ forall rest, start (size ++ "/" ++ id ++ "/" ++ rest)
                  = start (size ++ "/" ++ id).
Proof.
  intros Hsize Hid Hsign name.
  assert (H1 : split (size ++ "/" ++ id) = [size; id]).
  { change ("/" ++ id) with (String slash id).
    rewrite (split_at_slash size id Hsize), (split_no_slash id Hid). reflexivity. }
  assert (H2 : forall rest,
             split (size ++ "/" ++ id ++ "/" ++ rest) = size :: id :: split rest).
  { intro rest.
    change ("/" ++ id ++ "/" ++ rest) with (String slash (id ++ String slash rest)).
    rewrite (split_at_slash size _ Hsize), (split_at_slash id rest Hid).
    reflexivity. }
  split.
  - unfold start. cbv zeta. rewrite H1.
    rewrite (zfill_unsigned 3 id Hsign). reflexivity.
  - intro rest. unfold start. cbv zeta. rewrite H1, H2. reflexivity.
Qed.

Lemma start_paths_of_size_and_id_sample :
  start "small/7"
  = Paths "inputs/small/007.in" "outputs/small/007.out" "edited/small/007.out"
  /\ forall rest, start ("small" ++ "/" ++ "7" ++ "/" ++ rest)
                  = start ("small" ++ "/" ++ "7").
Proof.
  exact (start_paths_of_size_and_id "small" "7" eq_refl eq_refl eq_refl).
Defined.

End MainFacts.

(** ** Adding and deleting under a new identifier *)

Section FreshIdentifier.
Import Gui.

(** In the editor as opened on two towers the identifier [2] is new: a
    tower added in the cell [(0, 0)] and deleted again leaves the
    mapping as it was. *)
Lemma add_then_remove_new_identifier_sample :
  exists a1 a2 a3,
    add_tower Samples.click_0_0 Samples.app_two = Returned (PyNone, a1)
    /\ select_tower (Dict.len (towers (canvas Samples.app_two))) a1
       = Returned (PyNone, a2)
    /\ remove_tower a2 = Returned (PyNone, a3)
    /\ towers (canvas a3) = towers (canvas Samples.app_two)
    /\ in_sync a3.
Proof.
  apply (add_then_remove_new_identifier Samples.app_two Samples.click_0_0 0 0);
    reflexivity.
Defined.

End FreshIdentifier.
